(** * AdversarialTrainer: one training iteration and the state export

    A shallow embedding of [generative/engines/trainer.py].

    The trainer drives objects it does not own: networks, optimisers,
    inferers, loss functions, gradient scalers, the batch preparation and the
    handlers of its events.  Their behaviour is left open: every call on them
    goes through an oracle ([prepare_batch], [library]) that acts on a heap,
    may raise, and is recorded with its outcome in a trace.  What the trainer
    itself does (the order of the calls, what it stores in
    [engine.state.output], which branch it takes, what it raises) is modelled
    statement by statement, in a state and exception monad in which the
    state reached survives an exception.

    - Python objects are references ([Obj]): equality of two of them is
      identity of the objects.
    - [engine.state.output] is written by the trainer only: collaborators
      and handlers act on the heap.
    - [zero_grad] of modules and optimisers is not left open but follows
      PyTorch: it acts on the gradients of the parameters of its receiver.
    - In [get_state], the [state_dict()] of a sub-state is a value read from
      the object; warnings are collected in a list. *)

From stdpp Require Import gmap strings list fin_maps.

Set Default Proof Using "Type".

(** ** Keys of the iteration output *)

(** Modelled from the spec: the enumerations [CommonKeys] (imported as
    [Keys]) and [AdversarialKeys] are declared outside the source file; the
    members the trainer uses are the eleven entries of the iteration output
    record, taken here as pairwise distinct enumeration members. *)
Inductive Key : Type :=
  | IMAGE | LABEL | PRED | LOSS
  | REALS | FAKES | REAL_LOGITS | FAKE_LOGITS
  | RECONSTRUCTION_LOSS | GENERATOR_LOSS | DISCRIMINATOR_LOSS.

#[global] Instance Key_eq_dec : EqDecision Key.
Proof. solve_decision. Defined.

Definition Key_index (k : Key) : nat :=
  match k with
  | IMAGE => 0 | LABEL => 1 | PRED => 2 | LOSS => 3
  | REALS => 4 | FAKES => 5 | REAL_LOGITS => 6 | FAKE_LOGITS => 7
  | RECONSTRUCTION_LOSS => 8 | GENERATOR_LOSS => 9 | DISCRIMINATOR_LOSS => 10
  end.

Definition Key_of_index (n : nat) : option Key :=
  match n with
  | 0 => Some IMAGE | 1 => Some LABEL | 2 => Some PRED | 3 => Some LOSS
  | 4 => Some REALS | 5 => Some FAKES | 6 => Some REAL_LOGITS
  | 7 => Some FAKE_LOGITS | 8 => Some RECONSTRUCTION_LOSS
  | 9 => Some GENERATOR_LOSS | 10 => Some DISCRIMINATOR_LOSS
  | _ => None
  end.

Lemma Key_of_index_index (k : Key) : Key_of_index (Key_index k) = Some k.
Proof. by destruct k. Qed.

#[global] Instance Key_countable : Countable Key :=
  inj_countable Key_index Key_of_index Key_of_index_index.

(** ** Lifecycle events *)

(** Modelled from the spec: [AdversarialIterationEvents] is declared outside
    the source file; its members are the events listed in the event
    registry. *)
Inductive AdversarialIterationEvents : Type :=
  | GENERATOR_FORWARD_COMPLETED
  | GENERATOR_DISCRIMINATOR_FORWARD_COMPLETED
  | RECONSTRUCTION_LOSS_COMPLETED
  | GENERATOR_LOSS_COMPLETED
  | GENERATOR_BACKWARD_COMPLETED
  | GENERATOR_MODEL_COMPLETED
  | DISCRIMINATOR_REALS_FORWARD_COMPLETED
  | DISCRIMINATOR_FAKES_FORWARD_COMPLETED
  | DISCRIMINATOR_LOSS_COMPLETED
  | DISCRIMINATOR_BACKWARD_COMPLETED.

#[global] Instance AdversarialIterationEvents_eq_dec :
  EqDecision AdversarialIterationEvents.
Proof. solve_decision. Defined.

(** ** Outcomes of Python calls *)

(** [Obj] is the type of Python object references: two references are equal
    exactly when they denote the very same object. *)

Inductive Exn (Obj : Type) : Type :=
  | ValueError (msg : string)            (* raise ValueError(msg) *)
  | UnpackError (expected got : nat)     (* ValueError of a tuple unpacking *)
  | TypeError                            (* subscript of None *)
  | KeyError (k : Key)                   (* missing key of the output *)
  | Raised (exc : Obj).                  (* raised by a collaborator *)
Arguments ValueError {Obj} msg.
Arguments UnpackError {Obj} expected got.
Arguments TypeError {Obj}.
Arguments KeyError {Obj} k.
Arguments Raised {Obj} exc.

Inductive Outcome (Obj A : Type) : Type :=
  | Returns (a : A)
  | Raises (e : Exn Obj).
Arguments Returns {Obj A} a.
Arguments Raises {Obj A} e.

(** Extra positional and keyword arguments of the batch: a 2-tuple batch has
    none ([args = ()], [kwargs = {}]). *)
Inductive Extra (Obj : Type) : Type :=
  | NoExtra
  | WithExtra (args kwargs : Obj).
Arguments NoExtra {Obj}.
Arguments WithExtra {Obj} args kwargs.

(** A [torch.nn.Module] with the parameters [parameters()] yields, and a
    [torch.optim.Optimizer] with its parameter groups. *)
Record Module (Obj : Type) : Type :=
  { module_ref : Obj; parameters : list Obj }.
Arguments module_ref {Obj} m.
Arguments parameters {Obj} m.

Record Optimizer (Obj : Type) : Type :=
  { optimizer_ref : Obj; param_groups : list (list Obj) }.
Arguments optimizer_ref {Obj} o.
Arguments param_groups {Obj} o.

(** Calls the trainer makes on the objects it is given. *)
Inductive Op (Obj : Type) : Type :=
  | TRAIN (m : Module Obj)                                 (* m.train() *)
  | MODULE_ZERO_GRAD (m : Module Obj) (set_to_none : bool) (* m.zero_grad(set_to_none=b) *)
  | OPTIMIZER_ZERO_GRAD (o : Optimizer Obj) (set_to_none : bool)
  | INFER (inferer inputs : Obj) (network : Module Obj) (extra : Extra Obj)
  | FLOAT (t : Obj)                                        (* t.float() *)
  | CONTIGUOUS (t : Obj)                                   (* t.contiguous() *)
  | DETACH (t : Obj)                                       (* t.detach() *)
  | MEAN (t : Obj)                                         (* t.mean() *)
  | ADD (a b : Obj)                                        (* a + b *)
  | LOSS_CALL (f : Obj) (xs : list Obj)                    (* f( *xs ) *)
  | BACKWARD (t : Obj)                                     (* t.backward() *)
  | STEP (o : Optimizer Obj)                               (* o.step() *)
  | SCALE (scaler t : Obj)                                 (* scaler.scale(t) *)
  | SCALER_STEP (scaler : Obj) (o : Optimizer Obj)         (* scaler.step(o) *)
  | SCALER_UPDATE (scaler : Obj)                           (* scaler.update() *)
  | AUTOCAST_ENTER (kwargs : Obj)
  | AUTOCAST_EXIT
  | FIRE_EVENT (ev : AdversarialIterationEvents).
Arguments TRAIN {Obj} m.
Arguments MODULE_ZERO_GRAD {Obj} m set_to_none.
Arguments OPTIMIZER_ZERO_GRAD {Obj} o set_to_none.
Arguments INFER {Obj} inferer inputs network extra.
Arguments FLOAT {Obj} t.
Arguments CONTIGUOUS {Obj} t.
Arguments DETACH {Obj} t.
Arguments MEAN {Obj} t.
Arguments ADD {Obj} a b.
Arguments LOSS_CALL {Obj} f xs.
Arguments BACKWARD {Obj} t.
Arguments STEP {Obj} o.
Arguments SCALE {Obj} scaler t.
Arguments SCALER_STEP {Obj} scaler o.
Arguments SCALER_UPDATE {Obj} scaler.
Arguments AUTOCAST_ENTER {Obj} kwargs.
Arguments AUTOCAST_EXIT {Obj}.
Arguments FIRE_EVENT {Obj} ev.

(** One entry of the trace: a call, with what it returned or raised.  [Asked]
    is a call whose value the trainer uses, [Did] a call made as a statement,
    whose value is dropped. *)
Inductive Action (Obj : Type) : Type :=
  | Prepared (batchdata device : Obj) (non_blocking : bool) (to_kwargs : Obj)
             (r : Outcome Obj (list Obj))
  | Asked (op : Op Obj) (r : Outcome Obj Obj)
  | Did (op : Op Obj) (r : Outcome Obj unit).
Arguments Prepared {Obj} batchdata device non_blocking to_kwargs r.
Arguments Asked {Obj} op r.
Arguments Did {Obj} op r.

(** The attributes of the trainer that [_iteration] and [get_state] read. *)
Record AdversarialTrainer (Obj : Type) : Type :=
  { device : Obj;
    non_blocking : bool;
    to_kwargs : Obj;
    amp : bool;
    amp_kwargs : Obj;
    g_network : Module Obj;
    g_optimizer : Optimizer Obj;
    g_loss_function : Obj;
    recon_loss_function : Obj;
    d_network : Module Obj;
    d_optimizer : Optimizer Obj;
    d_loss_function : Obj;
    g_inferer : Obj;
    d_inferer : Obj;
    g_scaler : option Obj;
    d_scaler : option Obj;
    optim_set_to_none : bool }.
Arguments device {Obj} a.
Arguments non_blocking {Obj} a.
Arguments to_kwargs {Obj} a.
Arguments amp {Obj} a.
Arguments amp_kwargs {Obj} a.
Arguments g_network {Obj} a.
Arguments g_optimizer {Obj} a.
Arguments g_loss_function {Obj} a.
Arguments recon_loss_function {Obj} a.
Arguments d_network {Obj} a.
Arguments d_optimizer {Obj} a.
Arguments d_loss_function {Obj} a.
Arguments g_inferer {Obj} a.
Arguments d_inferer {Obj} a.
Arguments g_scaler {Obj} a.
Arguments d_scaler {Obj} a.
Arguments optim_set_to_none {Obj} a.

(** What the base class stores and what the constructor is given. *)
Record Settings (Obj : Type) : Type :=
  { s_device : Obj;
    s_non_blocking : bool;
    s_to_kwargs : Obj;
    s_amp : bool;
    s_amp_kwargs : Obj;
    s_g_network : Module Obj;
    s_g_optimizer : Optimizer Obj;
    s_g_loss_function : Obj;
    s_recon_loss_function : Obj;
    s_d_network : Module Obj;
    s_d_optimizer : Optimizer Obj;
    s_d_loss_function : Obj;
    s_g_inferer : option Obj;
    s_d_inferer : option Obj;
    s_optim_set_to_none : bool }.
Arguments s_device {Obj} s.
Arguments s_non_blocking {Obj} s.
Arguments s_to_kwargs {Obj} s.
Arguments s_amp {Obj} s.
Arguments s_amp_kwargs {Obj} s.
Arguments s_g_network {Obj} s.
Arguments s_g_optimizer {Obj} s.
Arguments s_g_loss_function {Obj} s.
Arguments s_recon_loss_function {Obj} s.
Arguments s_d_network {Obj} s.
Arguments s_d_optimizer {Obj} s.
Arguments s_d_loss_function {Obj} s.
Arguments s_g_inferer {Obj} s.
Arguments s_d_inferer {Obj} s.
Arguments s_optim_set_to_none {Obj} s.

(** The objects the constructor creates: [SimpleInferer()] twice and
    [torch.cuda.amp.GradScaler()] twice. *)
Record Created (Obj : Type) : Type :=
  { new_g_inferer : Obj; new_d_inferer : Obj;
    new_g_scaler : Obj; new_d_scaler : Obj }.
Arguments new_g_inferer {Obj} c.
Arguments new_d_inferer {Obj} c.
Arguments new_g_scaler {Obj} c.
Arguments new_d_scaler {Obj} c.

Definition __init__ {Obj : Type} (s : Settings Obj) (c : Created Obj) :
    AdversarialTrainer Obj :=
  {| device := s_device s;
     non_blocking := s_non_blocking s;
     to_kwargs := s_to_kwargs s;
     amp := s_amp s;
     amp_kwargs := s_amp_kwargs s;
     g_network := s_g_network s;
     g_optimizer := s_g_optimizer s;
     g_loss_function := s_g_loss_function s;
     recon_loss_function := s_recon_loss_function s;
     d_network := s_d_network s;
     d_optimizer := s_d_optimizer s;
     d_loss_function := s_d_loss_function s;
     g_inferer := match s_g_inferer s with
                  | None => new_g_inferer c
                  | Some i => i
                  end;
     d_inferer := match s_d_inferer s with
                  | None => new_d_inferer c
                  | Some i => i
                  end;
     g_scaler := if s_amp s then Some (new_g_scaler c) else None;
     d_scaler := if s_amp s then Some (new_d_scaler c) else None;
     optim_set_to_none := s_optim_set_to_none s |}.

(** ** The iteration, as a program over a heap and a trace *)

Section Iteration.

Context {Obj : Type} `{Countable Obj}.

(** [World] is whatever the collaborators keep (weights, optimiser slots,
    loss scale, training flags); [Tensor] is the content of a gradient,
    [zeros t] what [t.zero_()] leaves in it. *)
Context {World Tensor : Type}.
Variable zeros : Tensor -> Tensor.

(** [grads] maps a parameter to the content of its [.grad]; a parameter
    whose [.grad] is [None] has no entry. *)
Record Heap : Type := { grads : gmap Obj Tensor; world : World }.

(** The behaviour of the collaborators: [engine.prepare_batch], and every
    other call.  Nothing is assumed of them. *)
Variable prepare_batch :
  Obj -> Obj -> bool -> Obj -> Heap -> Outcome Obj (list Obj) * Heap.
Variable library : Op Obj -> Heap -> Outcome Obj Obj * Heap.

(** *** Gradient zeroing

    [torch.nn.Module.zero_grad] visits the module's own parameters,
    [torch.optim.Optimizer.zero_grad] those of its parameter groups; a
    gradient that is [None] stays [None], another one is dropped
    ([set_to_none]) or zeroed in place. *)
Definition zero_grad_of (set_to_none : bool) (g : gmap Obj Tensor) (p : Obj) :
    gmap Obj Tensor :=
  match g !! p with
  | None => g
  | Some t => if set_to_none then delete p g else <[p := zeros t]> g
  end.

Definition zero_grads (set_to_none : bool) (ps : list Obj) (h : Heap) : Heap :=
  {| grads := foldl (zero_grad_of set_to_none) (grads h) ps; world := world h |}.

Definition Module_zero_grad (m : Module Obj) (set_to_none : bool) : Heap -> Heap :=
  zero_grads set_to_none (parameters m).

Definition Optimizer_zero_grad (o : Optimizer Obj) (set_to_none : bool) :
    Heap -> Heap :=
  zero_grads set_to_none (concat (param_groups o)).

(** What a statement call does to the heap.  The value it returns is
    dropped by the trainer; [discard] forgets it. *)
Definition discard (r : Outcome Obj Obj) : Outcome Obj unit :=
  match r with
  | Returns _ => Returns tt
  | Raises e => Raises e
  end.

Definition exec_statement (op : Op Obj) (h : Heap) : Outcome Obj unit * Heap :=
  match op with
  | MODULE_ZERO_GRAD m b => (Returns tt, Module_zero_grad m b h)
  | OPTIMIZER_ZERO_GRAD o b => (Returns tt, Optimizer_zero_grad o b h)
  | _ => (discard (library op h).1, (library op h).2)
  end.

(** *** State and monad *)

Record State : Type :=
  { output : option (gmap Key Obj);   (* engine.state.output *)
    trace : list (Action Obj);        (* calls made so far, oldest first *)
    heap : Heap }.

Definition M (A : Type) : Type := State -> Outcome Obj A * State.

Definition ret {A} (a : A) : M A := fun s => (Returns a, s).

Definition raise {A} (e : Exn Obj) : M A := fun s => (Raises e, s).

Definition bind {A B} (m : M A) (k : A -> M B) : M B :=
  fun s =>
    match m s with
    | (Returns a, s1) => k a s1
    | (Raises e, s1) => (Raises e, s1)
    end.


Notation "'let!' x ':=' m 'in' k" := (bind m (fun x => k))
  (at level 10, x name, m at level 100, k at level 200, only parsing).
Notation "m ;> k" := (bind m (fun _ => k))
  (at level 100, k at level 200, right associativity, only parsing).

Definition log (a : Action Obj) (h : Heap) (s : State) : State :=
  {| output := output s; trace := trace s ++ [a]; heap := h |}.

(** A call whose value is used. *)
Definition ask (op : Op Obj) : M Obj :=
  fun s => let r := library op (heap s) in (r.1, log (Asked op r.1) r.2 s).

(** A call made as a statement. *)
Definition perform (op : Op Obj) : M unit :=
  fun s => let r := exec_statement op (heap s) in (r.1, log (Did op r.1) r.2 s).

(** [engine.fire_event(ev)]: the handlers registered for [ev] run. *)
Definition fire_event (ev : AdversarialIterationEvents) : M unit :=
  perform (FIRE_EVENT ev).

(** [engine.state.output = d] *)
Definition assign_output (d : gmap Key Obj) : M unit :=
  fun s => (Returns tt, {| output := Some d; trace := trace s; heap := heap s |}).

(** [engine.state.output[k] = v] *)
Definition store (k : Key) (v : Obj) : M unit :=
  fun s =>
    match output s with
    | Some d =>
        (Returns tt, {| output := Some (<[k := v]> d); trace := trace s; heap := heap s |})
    | None => (Raises TypeError, s)
    end.

(** [engine.state.output[k]] *)
Definition load (k : Key) : M Obj :=
  fun s =>
    match output s with
    | Some d =>
        match d !! k with
        | Some v => (Returns v, s)
        | None => (Raises (KeyError k), s)
        end
    | None => (Raises TypeError, s)
    end.

(** [engine.prepare_batch(batchdata, engine.state.device,
    engine.non_blocking, **engine.to_kwargs)] *)
Definition prepare (engine : AdversarialTrainer Obj) (batchdata : Obj) :
    M (list Obj) :=
  fun s =>
    let r := prepare_batch batchdata (device engine) (non_blocking engine)
               (to_kwargs engine) (heap s) in
    (r.1, log (Prepared batchdata (device engine) (non_blocking engine)
                 (to_kwargs engine) r.1) r.2 s).

(** The two unpackings of the batch. *)
Definition unpack (batch : list Obj) : M (Obj * Obj * Extra Obj) :=
  if decide (length batch = 2) then
    match batch with
    | [inputs; targets] => ret (inputs, targets, NoExtra)
    | _ => raise (UnpackError 2 (length batch))
    end
  else
    match batch with
    | [inputs; targets; args; kwargs] =>
        ret (inputs, targets, WithExtra args kwargs)
    | _ => raise (UnpackError 4 (length batch))
    end.

(** [with torch.cuda.amp.autocast( **kwargs ): body]: the scope is left
    also when the body raises, and what the body raised is raised again. *)
Definition with_autocast {A} (kwargs : Obj) (body : M A) : M A :=
  fun s =>
    match perform (AUTOCAST_ENTER kwargs) s with
    | (Raises e, s1) => (Raises e, s1)
    | (Returns _, s1) =>
        match body s1 with
        | (r, s2) =>
            match perform AUTOCAST_EXIT s2 with
            | (Raises e, s3) => (Raises e, s3)
            | (Returns _, s3) => (r, s3)
            end
        end
    end.

(** [engine.amp and scaler is not None], with the scaler the branch uses. *)
Definition scaler_in_use (amp : bool) (scaler : option Obj) : option Obj :=
  if amp then scaler else None.

Definition _compute_generator_loss (engine : AdversarialTrainer Obj)
    (inputs targets : Obj) (extra : Extra Obj) : M unit :=
  let! fakes := ask (INFER (g_inferer engine) inputs (g_network engine) extra) in
  store FAKES fakes ;>
  let! fakes := load FAKES in
  store PRED fakes ;>
  fire_event GENERATOR_FORWARD_COMPLETED ;>

  let! fakes := load FAKES in
  let! fakes_float := ask (FLOAT fakes) in
  let! fakes_contiguous := ask (CONTIGUOUS fakes_float) in
  let! logits := ask (INFER (d_inferer engine) fakes_contiguous
                        (d_network engine) extra) in
  store FAKE_LOGITS logits ;>
  fire_event GENERATOR_DISCRIMINATOR_FORWARD_COMPLETED ;>

  let! fakes := load FAKES in
  let! recon := ask (LOSS_CALL (recon_loss_function engine) [fakes; targets]) in
  let! recon_mean := ask (MEAN recon) in
  store RECONSTRUCTION_LOSS recon_mean ;>
  fire_event RECONSTRUCTION_LOSS_COMPLETED ;>

  let! logits := load FAKE_LOGITS in
  let! gen := ask (LOSS_CALL (g_loss_function engine) [logits]) in
  let! gen_mean := ask (MEAN gen) in
  store GENERATOR_LOSS gen_mean ;>
  fire_event GENERATOR_LOSS_COMPLETED.

Definition _compute_discriminator_loss (engine : AdversarialTrainer Obj)
    (extra : Extra Obj) : M unit :=
  let! reals := load REALS in
  let! reals_contiguous := ask (CONTIGUOUS reals) in
  let! reals_detached := ask (DETACH reals_contiguous) in
  let! real_logits := ask (INFER (d_inferer engine) reals_detached
                             (d_network engine) extra) in
  store REAL_LOGITS real_logits ;>
  fire_event DISCRIMINATOR_REALS_FORWARD_COMPLETED ;>

  let! fakes := load FAKES in
  let! fakes_contiguous := ask (CONTIGUOUS fakes) in
  let! fakes_detached := ask (DETACH fakes_contiguous) in
  let! fake_logits := ask (INFER (d_inferer engine) fakes_detached
                             (d_network engine) extra) in
  store FAKE_LOGITS fake_logits ;>
  fire_event DISCRIMINATOR_FAKES_FORWARD_COMPLETED ;>

  let! real_logits := load REAL_LOGITS in
  let! fake_logits := load FAKE_LOGITS in
  let! loss := ask (LOSS_CALL (d_loss_function engine) [real_logits; fake_logits]) in
  let! loss_mean := ask (MEAN loss) in
  store DISCRIMINATOR_LOSS loss_mean ;>
  fire_event DISCRIMINATOR_LOSS_COMPLETED.

(** The part of [_iteration] under [# Train Generator]. *)
Definition train_generator (engine : AdversarialTrainer Obj)
    (inputs targets : Obj) (extra : Extra Obj) : M unit :=
  perform (TRAIN (g_network engine)) ;>
  perform (OPTIMIZER_ZERO_GRAD (g_optimizer engine) (optim_set_to_none engine)) ;>
  match scaler_in_use (amp engine) (g_scaler engine) with
  | Some g_scaler =>
      with_autocast (amp_kwargs engine)
        (_compute_generator_loss engine inputs targets extra) ;>
      let! recon := load RECONSTRUCTION_LOSS in
      let! gen := load GENERATOR_LOSS in
      let! loss := ask (ADD recon gen) in
      store LOSS loss ;>
      let! loss := load LOSS in
      let! scaled := ask (SCALE g_scaler loss) in
      perform (BACKWARD scaled) ;>
      fire_event GENERATOR_BACKWARD_COMPLETED ;>
      perform (SCALER_STEP g_scaler (g_optimizer engine)) ;>
      perform (SCALER_UPDATE g_scaler)
  | None =>
      _compute_generator_loss engine inputs targets extra ;>
      let! recon := load RECONSTRUCTION_LOSS in
      let! gen := load GENERATOR_LOSS in
      let! loss := ask (ADD recon gen) in
      perform (BACKWARD loss) ;>
      fire_event GENERATOR_BACKWARD_COMPLETED ;>
      perform (STEP (g_optimizer engine))
  end ;>
  fire_event GENERATOR_MODEL_COMPLETED.

(** The part of [_iteration] under [# Train Discriminator]. *)
Definition train_discriminator (engine : AdversarialTrainer Obj)
    (extra : Extra Obj) : M unit :=
  perform (TRAIN (d_network engine)) ;>
  perform (MODULE_ZERO_GRAD (d_network engine) (optim_set_to_none engine)) ;>
  match scaler_in_use (amp engine) (d_scaler engine) with
  | Some d_scaler =>
      with_autocast (amp_kwargs engine)
        (_compute_discriminator_loss engine extra) ;>
      let! loss := load DISCRIMINATOR_LOSS in
      let! scaled := ask (SCALE d_scaler loss) in
      perform (BACKWARD scaled) ;>
      fire_event DISCRIMINATOR_BACKWARD_COMPLETED ;>
      perform (SCALER_STEP d_scaler (d_optimizer engine)) ;>
      perform (SCALER_UPDATE d_scaler)
  | None =>
      _compute_discriminator_loss engine extra ;>
      let! loss := load DISCRIMINATOR_LOSS in
      perform (BACKWARD loss) ;>
      perform (STEP (d_optimizer engine))
  end.

(** [_iteration(self, engine, batchdata)]; the value returned is
    [engine.state.output]. *)
Definition _iteration (engine : AdversarialTrainer Obj)
    (batchdata : option Obj) : M (option (gmap Key Obj)) :=
  match batchdata with
  | None => raise (ValueError "Must provide batch data for current iteration.")
  | Some batchdata =>
      let! batch := prepare engine batchdata in
      let! unpacked := unpack batch in
      let '(inputs, targets, extra) := unpacked in
      assign_output (<[REALS := inputs]> (<[LABEL := targets]> (<[IMAGE := inputs]> ∅))) ;>
      train_generator engine inputs targets extra ;>
      train_discriminator engine extra ;>
      fun s => (Returns (output s), s)
  end.

End Iteration.

(** ** The state export *)

(** The names of the boolean parameters of [get_state]. *)
Inductive Switch : Type :=
  | INCLUDE_ENGINE
  | INCLUDE_GENERATOR
  | INCLUDE_GENERATOR_OPTIMISER
  | INCLUDE_GENERATOR_SCALER
  | INCLUDE_GENERATOR_LOSS
  | INCLUDE_DISCRIMINATOR
  | INCLUDE_DISCRIMINATOR_OPTIMISER
  | INCLUDE_DISCRIMINATOR_SCALER
  | INCLUDE_DISCRIMINATOR_LOSS.

#[global] Instance Switch_eq_dec : EqDecision Switch.
Proof. solve_decision. Defined.

Definition switches : list Switch :=
  [ INCLUDE_ENGINE; INCLUDE_GENERATOR; INCLUDE_GENERATOR_OPTIMISER;
    INCLUDE_GENERATOR_SCALER; INCLUDE_GENERATOR_LOSS; INCLUDE_DISCRIMINATOR;
    INCLUDE_DISCRIMINATOR_OPTIMISER; INCLUDE_DISCRIMINATOR_SCALER;
    INCLUDE_DISCRIMINATOR_LOSS ].

(** The key of the snapshot a switch governs. *)
Definition switch_key (sw : Switch) : string :=
  match sw with
  | INCLUDE_ENGINE => "engine"
  | INCLUDE_GENERATOR => "generator"
  | INCLUDE_GENERATOR_OPTIMISER => "generator_optimizer"
  | INCLUDE_GENERATOR_SCALER => "generator_scaler"
  | INCLUDE_GENERATOR_LOSS => "generator_loss"
  | INCLUDE_DISCRIMINATOR => "discriminator"
  | INCLUDE_DISCRIMINATOR_OPTIMISER => "discriminator_optimizer"
  | INCLUDE_DISCRIMINATOR_SCALER => "discriminator_scaler"
  | INCLUDE_DISCRIMINATOR_LOSS => "discriminator_loss"
  end.

(** The boolean parameters of [get_state]. *)
Record Includes : Type :=
  { include_engine : bool;
    include_generator : bool;
    include_generator_optimiser : bool;
    include_generator_scaler : bool;
    include_generator_loss : bool;
    include_discriminator : bool;
    include_discriminator_optimiser : bool;
    include_discriminator_scaler : bool;
    include_discriminator_loss : bool }.

(** Their default values: a call [get_state()] is [get_state defaults None]. *)
Definition defaults : Includes :=
  {| include_engine := true;
     include_generator := true;
     include_generator_optimiser := true;
     include_generator_scaler := false;
     include_generator_loss := true;
     include_discriminator := true;
     include_discriminator_optimiser := true;
     include_discriminator_scaler := false;
     include_discriminator_loss := true |}.

(** The value a call gives to a switch. *)
Definition switch_on (inc : Includes) (sw : Switch) : bool :=
  match sw with
  | INCLUDE_ENGINE => include_engine inc
  | INCLUDE_GENERATOR => include_generator inc
  | INCLUDE_GENERATOR_OPTIMISER => include_generator_optimiser inc
  | INCLUDE_GENERATOR_SCALER => include_generator_scaler inc
  | INCLUDE_GENERATOR_LOSS => include_generator_loss inc
  | INCLUDE_DISCRIMINATOR => include_discriminator inc
  | INCLUDE_DISCRIMINATOR_OPTIMISER => include_discriminator_optimiser inc
  | INCLUDE_DISCRIMINATOR_SCALER => include_discriminator_scaler inc
  | INCLUDE_DISCRIMINATOR_LOSS => include_discriminator_loss inc
  end.

(** The call in which every switch has the value [on] gives it. *)
Definition includes_of (on : Switch -> bool) : Includes :=
  {| include_engine := on INCLUDE_ENGINE;
     include_generator := on INCLUDE_GENERATOR;
     include_generator_optimiser := on INCLUDE_GENERATOR_OPTIMISER;
     include_generator_scaler := on INCLUDE_GENERATOR_SCALER;
     include_generator_loss := on INCLUDE_GENERATOR_LOSS;
     include_discriminator := on INCLUDE_DISCRIMINATOR;
     include_discriminator_optimiser := on INCLUDE_DISCRIMINATOR_OPTIMISER;
     include_discriminator_scaler := on INCLUDE_DISCRIMINATOR_SCALER;
     include_discriminator_loss := on INCLUDE_DISCRIMINATOR_LOSS |}.

Section StateExport.

Context {Obj StateDict : Type}.

(** [self.state_dict()], [x.state_dict()] for a network, an optimiser or a
    scaler, and for a loss function [getattr(f, "state_dict", None)]: the
    value of [f.state_dict()] when that attribute is callable. *)
Variable engine_state_dict : StateDict.
Variable state_dict : Obj -> StateDict.
Variable loss_state_dict : Obj -> option StateDict.

(** The dictionary under construction, with the warnings issued so far. *)
Definition Export : Type := gmap string StateDict * list string.

Definition set_item (k : string) (v : StateDict) (st : Export) : Export :=
  (<[k := v]> st.1, st.2).

Definition warn (msg : string) (st : Export) : Export :=
  (st.1, st.2 ++ [msg]).

(** [state_dict.update(d)]: the entries of [d] win. *)
Definition update (d : gmap string StateDict) (st : Export) : Export :=
  (d ∪ st.1, st.2).

Definition get_state (self : AdversarialTrainer Obj) (inc : Includes)
    (additional_states : option (gmap string StateDict)) : Export :=
  let st : Export := (∅, []) in
  let st :=
    if include_engine inc then set_item "engine" engine_state_dict st
    else warn "Engine state not included in checkpoint. This might cause issues when resuming training." st in
  let st :=
    if include_generator inc then
      set_item "generator" (state_dict (module_ref (g_network self))) st
    else warn "Generator state not included in checkpoint. This might cause issues when resuming training." st in
  let st :=
    if include_generator_optimiser inc then
      set_item "generator_optimizer" (state_dict (optimizer_ref (g_optimizer self))) st
    else warn "Generator optimizer state not included in checkpoint. This might cause issues when resuming training." st in
  let st :=
    if include_generator_scaler inc then
      match g_scaler self with
      | Some scaler => set_item "generator_scaler" (state_dict scaler) st
      | None => warn "Generator AMP scaler was required in checkpoint but not found due to AMP being disabled." st
      end
    else warn "Generator AMP scaler state not included in checkpoint. This might cause issues when resuming training." st in
  let st :=
    if include_generator_loss inc then
      match loss_state_dict (g_loss_function self) with
      | Some d => set_item "generator_loss" d st
      | None => warn "Generator loss does not have a state_dict method. Make sure this is the intended behaviour." st
      end
    else warn "Generator loss function state not included in checkpoint. This might cause issues when resuming training." st in
  let st :=
    if include_discriminator inc then
      set_item "discriminator" (state_dict (module_ref (d_network self))) st
    else warn "Discriminator state not included in checkpoint. This might cause issues when resuming training." st in
  let st :=
    if include_discriminator_optimiser inc then
      set_item "discriminator_optimizer" (state_dict (optimizer_ref (d_optimizer self))) st
    else warn "Discriminator optimizer state not included in checkpoint. This might cause issues when resuming training." st in
  let st :=
    if include_discriminator_scaler inc then
      match d_scaler self with
      | Some scaler => set_item "discriminator_scaler" (state_dict scaler) st
      | None => warn "Discriminator AMP scaler was required in checkpoint but not found due to AMP being disabled." st
      end
    else warn "Discriminator AMP scaler state not included in checkpoint. This might cause issues when resuming training." st in
  let st :=
    if include_discriminator_loss inc then
      match loss_state_dict (d_loss_function self) with
      | Some d => set_item "discriminator_loss" d st
      | None => warn "Discriminator loss does not have a state_dict method. Make sure this is the intended behaviour." st
      end
    else warn "Discriminator loss function state not included in checkpoint. This might cause issues when resuming training." st in
  match additional_states with
  | Some d => update d st
  | None => st
  end.

(** The sub-state a switch governs, when it exists: a scaler exists with
    mixed precision only, the state of a loss function when the function
    has a [state_dict] method. *)
Definition substate (self : AdversarialTrainer Obj) (sw : Switch) :
    option StateDict :=
  match sw with
  | INCLUDE_ENGINE => Some engine_state_dict
  | INCLUDE_GENERATOR => Some (state_dict (module_ref (g_network self)))
  | INCLUDE_GENERATOR_OPTIMISER =>
      Some (state_dict (optimizer_ref (g_optimizer self)))
  | INCLUDE_GENERATOR_SCALER => state_dict <$> g_scaler self
  | INCLUDE_GENERATOR_LOSS => loss_state_dict (g_loss_function self)
  | INCLUDE_DISCRIMINATOR => Some (state_dict (module_ref (d_network self)))
  | INCLUDE_DISCRIMINATOR_OPTIMISER =>
      Some (state_dict (optimizer_ref (d_optimizer self)))
  | INCLUDE_DISCRIMINATOR_SCALER => state_dict <$> d_scaler self
  | INCLUDE_DISCRIMINATOR_LOSS => loss_state_dict (d_loss_function self)
  end.

(** One [if include_...] block of [get_state], in general form: [sub] is
    the sub-state if it exists, [missing] the warning when it does not and
    [off] the warning when the switch is disabled. *)
Definition block (flag : bool) (k : string) (sub : option StateDict)
    (missing off : string) (st : Export) : Export :=
  if flag then
    match sub with
    | Some v => set_item k v st
    | None => warn missing st
    end
  else warn off st.

(** The warning a block issues. *)
Definition block_warning (flag : bool) (sub : option StateDict)
    (missing off : string) : list string :=
  if flag then
    match sub with
    | Some _ => []
    | None => [missing]
    end
  else [off].

(** The body of [get_state] is nine blocks, one per switch, and the
    merge. *)
Definition blocks (self : AdversarialTrainer Obj) (inc : Includes) : Export :=
  block (include_discriminator_loss inc) "discriminator_loss"
    (substate self INCLUDE_DISCRIMINATOR_LOSS)
    "Discriminator loss does not have a state_dict method. Make sure this is the intended behaviour."
    "Discriminator loss function state not included in checkpoint. This might cause issues when resuming training."
  (block (include_discriminator_scaler inc) "discriminator_scaler"
    (substate self INCLUDE_DISCRIMINATOR_SCALER)
    "Discriminator AMP scaler was required in checkpoint but not found due to AMP being disabled."
    "Discriminator AMP scaler state not included in checkpoint. This might cause issues when resuming training."
  (block (include_discriminator_optimiser inc) "discriminator_optimizer"
    (substate self INCLUDE_DISCRIMINATOR_OPTIMISER) ""
    "Discriminator optimizer state not included in checkpoint. This might cause issues when resuming training."
  (block (include_discriminator inc) "discriminator"
    (substate self INCLUDE_DISCRIMINATOR) ""
    "Discriminator state not included in checkpoint. This might cause issues when resuming training."
  (block (include_generator_loss inc) "generator_loss"
    (substate self INCLUDE_GENERATOR_LOSS)
    "Generator loss does not have a state_dict method. Make sure this is the intended behaviour."
    "Generator loss function state not included in checkpoint. This might cause issues when resuming training."
  (block (include_generator_scaler inc) "generator_scaler"
    (substate self INCLUDE_GENERATOR_SCALER)
    "Generator AMP scaler was required in checkpoint but not found due to AMP being disabled."
    "Generator AMP scaler state not included in checkpoint. This might cause issues when resuming training."
  (block (include_generator_optimiser inc) "generator_optimizer"
    (substate self INCLUDE_GENERATOR_OPTIMISER) ""
    "Generator optimizer state not included in checkpoint. This might cause issues when resuming training."
  (block (include_generator inc) "generator"
    (substate self INCLUDE_GENERATOR) ""
    "Generator state not included in checkpoint. This might cause issues when resuming training."
  (block (include_engine inc) "engine"
    (substate self INCLUDE_ENGINE) ""
    "Engine state not included in checkpoint. This might cause issues when resuming training."
    (∅, []))))))))).

End StateExport.

(** ** Reading a trace *)

Section Traces.

Context {Obj : Type}.

(** The event an entry fires, if it is a [fire_event]. *)
Definition fired (a : Action Obj) : option AdversarialIterationEvents :=
  match a with
  | Did (FIRE_EVENT ev) _ => Some ev
  | _ => None
  end.

Definition events_of (tr : list (Action Obj)) : list AdversarialIterationEvents :=
  omap fired tr.

(** The gradient zeroing an entry performs, if it is one. *)
Definition zeroing (a : Action Obj) : option (Op Obj) :=
  match a with
  | Did (MODULE_ZERO_GRAD m b) _ => Some (MODULE_ZERO_GRAD m b)
  | Did (OPTIMIZER_ZERO_GRAD o b) _ => Some (OPTIMIZER_ZERO_GRAD o b)
  | _ => None
  end.

Definition zeroings_of (tr : list (Action Obj)) : list (Op Obj) :=
  omap zeroing tr.

(** The tensor an entry backpropagates, if it is a [backward]. *)
Definition backpropagated (a : Action Obj) : option Obj :=
  match a with
  | Did (BACKWARD t) _ => Some t
  | _ => None
  end.

Definition backwards_of (tr : list (Action Obj)) : list Obj :=
  omap backpropagated tr.

(** The scaling an entry performs, with its result, if it is one that
    returned. *)
Definition scaled (a : Action Obj) : option (Obj * Obj * Obj) :=
  match a with
  | Asked (SCALE scaler t) (Returns r) => Some (scaler, t, r)
  | _ => None
  end.

Definition scalings_of (tr : list (Action Obj)) : list (Obj * Obj * Obj) :=
  omap scaled tr.

(** The addition an entry performs, with its result, if it is one that
    returned. *)
Definition added (a : Action Obj) : option (Obj * Obj * Obj) :=
  match a with
  | Asked (ADD x y) (Returns r) => Some (x, y, r)
  | _ => None
  end.

Definition additions_of (tr : list (Action Obj)) : list (Obj * Obj * Obj) :=
  omap added tr.

(** *** The script of an iteration that runs to its end

    The records name every object such an iteration obtains from its
    collaborators; [script] is the trace it leaves and [script_output] the
    record it builds. *)
Record GeneratorValues : Type :=
  { fakes : Obj; fakes_float : Obj; fakes_contiguous : Obj;
    g_fake_logits : Obj;
    recon : Obj; recon_mean : Obj;
    gen : Obj; gen_mean : Obj }.

Record DiscriminatorValues : Type :=
  { reals_contiguous : Obj; reals_detached : Obj; real_logits : Obj;
    d_fakes_contiguous : Obj; d_fakes_detached : Obj; d_fake_logits : Obj;
    d_loss : Obj; d_loss_mean : Obj }.

Record Values : Type :=
  { v_inputs : Obj; v_targets : Obj; v_extra : Extra Obj;
    v_g : GeneratorValues;
    v_loss : Obj; v_loss_scaled : Obj;
    v_d : DiscriminatorValues;
    v_d_loss_scaled : Obj }.

Definition batch_of (inputs targets : Obj) (extra : Extra Obj) : list Obj :=
  match extra with
  | NoExtra => [inputs; targets]
  | WithExtra args kwargs => [inputs; targets; args; kwargs]
  end.

Definition did (op : Op Obj) : Action Obj := Did op (Returns tt).

Definition got (op : Op Obj) (o : Obj) : Action Obj := Asked op (Returns o).

Section Script.

Variable e : AdversarialTrainer Obj.
Variables (inputs targets : Obj) (extra : Extra Obj).

Definition generator_loss_script (g : GeneratorValues) : list (Action Obj) :=
  [ got (INFER (g_inferer e) inputs (g_network e) extra) (fakes g);
    did (FIRE_EVENT GENERATOR_FORWARD_COMPLETED);
    got (FLOAT (fakes g)) (fakes_float g);
    got (CONTIGUOUS (fakes_float g)) (fakes_contiguous g);
    got (INFER (d_inferer e) (fakes_contiguous g) (d_network e) extra)
      (g_fake_logits g);
    did (FIRE_EVENT GENERATOR_DISCRIMINATOR_FORWARD_COMPLETED);
    got (LOSS_CALL (recon_loss_function e) [fakes g; targets]) (recon g);
    got (MEAN (recon g)) (recon_mean g);
    did (FIRE_EVENT RECONSTRUCTION_LOSS_COMPLETED);
    got (LOSS_CALL (g_loss_function e) [g_fake_logits g]) (gen g);
    got (MEAN (gen g)) (gen_mean g);
    did (FIRE_EVENT GENERATOR_LOSS_COMPLETED) ].

Definition generator_loss_output (g : GeneratorValues) (d : gmap Key Obj) :
    gmap Key Obj :=
  <[GENERATOR_LOSS := gen_mean g]>
    (<[RECONSTRUCTION_LOSS := recon_mean g]>
       (<[FAKE_LOGITS := g_fake_logits g]>
          (<[PRED := fakes g]>
             (<[FAKES := fakes g]> d)))).

Definition generator_script (g : GeneratorValues) (loss loss_scaled : Obj) :
    list (Action Obj) :=
  [ did (TRAIN (g_network e));
    did (OPTIMIZER_ZERO_GRAD (g_optimizer e) (optim_set_to_none e)) ]
  ++ match (if amp e then g_scaler e else None) with
     | Some scaler =>
         [ did (AUTOCAST_ENTER (amp_kwargs e)) ]
         ++ generator_loss_script g
         ++ [ did AUTOCAST_EXIT;
              got (ADD (recon_mean g) (gen_mean g)) loss;
              got (SCALE scaler loss) loss_scaled;
              did (BACKWARD loss_scaled);
              did (FIRE_EVENT GENERATOR_BACKWARD_COMPLETED);
              did (SCALER_STEP scaler (g_optimizer e));
              did (SCALER_UPDATE scaler) ]
     | None =>
         generator_loss_script g
         ++ [ got (ADD (recon_mean g) (gen_mean g)) loss;
              did (BACKWARD loss);
              did (FIRE_EVENT GENERATOR_BACKWARD_COMPLETED);
              did (STEP (g_optimizer e)) ]
     end
  ++ [ did (FIRE_EVENT GENERATOR_MODEL_COMPLETED) ].

Definition generator_output (g : GeneratorValues) (loss : Obj)
    (d : gmap Key Obj) : gmap Key Obj :=
  match (if amp e then g_scaler e else None) with
  | Some _ => <[LOSS := loss]> (generator_loss_output g d)
  | None => generator_loss_output g d
  end.

(** [reals] and [fakes] are the entries [REALS] and [FAKES] of the output
    when the discriminator is trained. *)
Variables (the_reals the_fakes : Obj).

Definition discriminator_loss_script (x : DiscriminatorValues) :
    list (Action Obj) :=
  [ got (CONTIGUOUS the_reals) (reals_contiguous x);
    got (DETACH (reals_contiguous x)) (reals_detached x);
    got (INFER (d_inferer e) (reals_detached x) (d_network e) extra)
      (real_logits x);
    did (FIRE_EVENT DISCRIMINATOR_REALS_FORWARD_COMPLETED);
    got (CONTIGUOUS the_fakes) (d_fakes_contiguous x);
    got (DETACH (d_fakes_contiguous x)) (d_fakes_detached x);
    got (INFER (d_inferer e) (d_fakes_detached x) (d_network e) extra)
      (d_fake_logits x);
    did (FIRE_EVENT DISCRIMINATOR_FAKES_FORWARD_COMPLETED);
    got (LOSS_CALL (d_loss_function e) [real_logits x; d_fake_logits x])
      (d_loss x);
    got (MEAN (d_loss x)) (d_loss_mean x);
    did (FIRE_EVENT DISCRIMINATOR_LOSS_COMPLETED) ].

Definition discriminator_loss_output (x : DiscriminatorValues)
    (d : gmap Key Obj) : gmap Key Obj :=
  <[DISCRIMINATOR_LOSS := d_loss_mean x]>
    (<[FAKE_LOGITS := d_fake_logits x]>
       (<[REAL_LOGITS := real_logits x]> d)).

Definition discriminator_script (x : DiscriminatorValues) (loss_scaled : Obj) :
    list (Action Obj) :=
  [ did (TRAIN (d_network e));
    did (MODULE_ZERO_GRAD (d_network e) (optim_set_to_none e)) ]
  ++ match (if amp e then d_scaler e else None) with
     | Some scaler =>
         [ did (AUTOCAST_ENTER (amp_kwargs e)) ]
         ++ discriminator_loss_script x
         ++ [ did AUTOCAST_EXIT;
              got (SCALE scaler (d_loss_mean x)) loss_scaled;
              did (BACKWARD loss_scaled);
              did (FIRE_EVENT DISCRIMINATOR_BACKWARD_COMPLETED);
              did (SCALER_STEP scaler (d_optimizer e));
              did (SCALER_UPDATE scaler) ]
     | None =>
         discriminator_loss_script x
         ++ [ did (BACKWARD (d_loss_mean x));
              did (STEP (d_optimizer e)) ]
     end.

End Script.

Definition script (e : AdversarialTrainer Obj) (batchdata : Obj) (v : Values) :
    list (Action Obj) :=
  Prepared batchdata (device e) (non_blocking e) (to_kwargs e)
    (Returns (batch_of (v_inputs v) (v_targets v) (v_extra v)))
  :: generator_script e (v_inputs v) (v_targets v) (v_extra v)
       (v_g v) (v_loss v) (v_loss_scaled v)
  ++ discriminator_script e (v_extra v) (v_inputs v) (fakes (v_g v))
       (v_d v) (v_d_loss_scaled v).

Definition initial_output (inputs targets : Obj) : gmap Key Obj :=
  <[REALS := inputs]> (<[LABEL := targets]> (<[IMAGE := inputs]> ∅)).

Definition script_output (e : AdversarialTrainer Obj) (v : Values) :
    gmap Key Obj :=
  discriminator_loss_output (v_d v)
    (generator_output e (v_g v) (v_loss v)
       (initial_output (v_inputs v) (v_targets v))).

End Traces.

(** ** Runs *)

Section Runs.

Context {Obj : Type} `{Countable Obj} {World Tensor : Type}.

Variable prepare_batch :
  Obj -> Obj -> bool -> Obj -> @Heap Obj _ _ World Tensor ->
  Outcome Obj (list Obj) * @Heap Obj _ _ World Tensor.
Variable library :
  Op Obj -> @Heap Obj _ _ World Tensor ->
  Outcome Obj Obj * @Heap Obj _ _ World Tensor.

(** [returns m s Q]: run from [s], [m] returns, with a value and in a
    state that satisfy [Q]. *)
Definition returns {A} (m : @M Obj _ _ World Tensor A)
    (s : @State Obj _ _ World Tensor)
    (Q : A -> @State Obj _ _ World Tensor -> Prop) : Prop :=
  exists a s', m s = (Returns a, s') /\ Q a s'.

(** [emits m evs]: every run of [m], whether it returns or raises, only
    adds entries to the trace, and the events they fire are the first ones
    of [evs], in order; a run that returns has fired all of [evs]. *)
Definition emits {A} (m : @M Obj _ _ World Tensor A)
    (evs : list AdversarialIterationEvents) : Prop :=
  forall s,
  exists new,
    trace (m s).2 = trace s ++ new /\
    events_of new `prefix_of` evs /\
    forall a, (m s).1 = Returns a -> events_of new = evs.

(** No call on a collaborator raises, and [prepare_batch] gives batches of
    two or of four components. *)
Definition never_raises : Prop :=
  forall op h, exists o, (library op h).1 = Returns o.

Definition prepares_batches : Prop :=
  forall batchdata device non_blocking to_kwargs h,
  exists batch,
    (prepare_batch batchdata device non_blocking to_kwargs h).1 = Returns batch
    /\ (length batch = 2 \/ length batch = 4).

(** The events of an iteration, in the order in which they are fired:
    the last one is fired in the branch of the discriminator scaler. *)
Definition iteration_events_of (scaler : option Obj) :
    list AdversarialIterationEvents :=
  [ GENERATOR_FORWARD_COMPLETED;
    GENERATOR_DISCRIMINATOR_FORWARD_COMPLETED;
    RECONSTRUCTION_LOSS_COMPLETED;
    GENERATOR_LOSS_COMPLETED;
    GENERATOR_BACKWARD_COMPLETED;
    GENERATOR_MODEL_COMPLETED;
    DISCRIMINATOR_REALS_FORWARD_COMPLETED;
    DISCRIMINATOR_FAKES_FORWARD_COMPLETED;
    DISCRIMINATOR_LOSS_COMPLETED ]
  ++ match scaler with
     | Some _ => [ DISCRIMINATOR_BACKWARD_COMPLETED ]
     | None => []
     end.

End Runs.

(** ** More readings of a trace *)

Section Readings.

Context {Obj : Type}.



(** A forward pass that returned: inferer, input, network, extra
    arguments and result. *)
Definition inferred (a : Action Obj) :
    option (Obj * Obj * Module Obj * Extra Obj * Obj) :=
  match a with
  | Asked (INFER i x n extra) (Returns r) => Some (i, x, n, extra, r)
  | _ => None
  end.

Definition inferences_of (tr : list (Action Obj)) :
    list (Obj * Obj * Module Obj * Extra Obj * Obj) :=
  omap inferred tr.

(** A tensor conversion ([float], [contiguous], [detach]) that returned,
    with its result. *)
Definition converted (a : Action Obj) : option (Op Obj * Obj) :=
  match a with
  | Asked (FLOAT t) (Returns r) => Some (FLOAT t, r)
  | Asked (CONTIGUOUS t) (Returns r) => Some (CONTIGUOUS t, r)
  | Asked (DETACH t) (Returns r) => Some (DETACH t, r)
  | _ => None
  end.

Definition conversions_of (tr : list (Action Obj)) : list (Op Obj * Obj) :=
  omap converted tr.

(** A call of a loss function that returned: function, arguments and
    result; and a [mean] that returned: argument and result. *)
Definition loss_called (a : Action Obj) : option (Obj * list Obj * Obj) :=
  match a with
  | Asked (LOSS_CALL f xs) (Returns r) => Some (f, xs, r)
  | _ => None
  end.

Definition loss_calls_of (tr : list (Action Obj)) :
    list (Obj * list Obj * Obj) :=
  omap loss_called tr.

Definition averaged (a : Action Obj) : option (Obj * Obj) :=
  match a with
  | Asked (MEAN t) (Returns r) => Some (t, r)
  | _ => None
  end.

Definition means_of (tr : list (Action Obj)) : list (Obj * Obj) :=
  omap averaged tr.

(** A statement that changes a network or an optimiser: [train],
    [zero_grad], [backward], and the steps and updates. *)
Definition updating (a : Action Obj) : option (Op Obj) :=
  match a with
  | Did (TRAIN m) _ => Some (TRAIN m)
  | Did (MODULE_ZERO_GRAD m b) _ => Some (MODULE_ZERO_GRAD m b)
  | Did (OPTIMIZER_ZERO_GRAD o b) _ => Some (OPTIMIZER_ZERO_GRAD o b)
  | Did (BACKWARD t) _ => Some (BACKWARD t)
  | Did (STEP o) _ => Some (STEP o)
  | Did (SCALER_STEP scaler o) _ => Some (SCALER_STEP scaler o)
  | Did (SCALER_UPDATE scaler) _ => Some (SCALER_UPDATE scaler)
  | _ => None
  end.

Definition updates_of (tr : list (Action Obj)) : list (Op Obj) :=
  omap updating tr.

(** Where an entry stands with respect to the autocast scope. *)
Inductive Mark : Type :=
  | ENTER
  | EXIT
  | FORWARD (network : Module Obj)
  | LOSS_OF (f : Obj)
  | BACKWARDS.

Definition marked (a : Action Obj) : option Mark :=
  match a with
  | Did (AUTOCAST_ENTER _) _ => Some ENTER
  | Did AUTOCAST_EXIT _ => Some EXIT
  | Asked (INFER _ _ n _) _ => Some (FORWARD n)
  | Asked (LOSS_CALL f _) _ => Some (LOSS_OF f)
  | Did (BACKWARD _) _ => Some BACKWARDS
  | _ => None
  end.

Definition marks_of (tr : list (Action Obj)) : list Mark :=
  omap marked tr.

(** An autocast scope entered (the enter returned), and a scope left (the
    exit was made, whatever came of it). *)
Definition entering (a : Action Obj) : option unit :=
  match a with
  | Did (AUTOCAST_ENTER _) (Returns _) => Some tt
  | _ => None
  end.

Definition leaving (a : Action Obj) : option unit :=
  match a with
  | Did AUTOCAST_EXIT _ => Some tt
  | _ => None
  end.

Definition balanced (tr : list (Action Obj)) : Prop :=
  length (omap entering tr) = length (omap leaving tr).

(** The operation of an entry, [prepare_batch] apart. *)
Definition operation (a : Action Obj) : option (Op Obj) :=
  match a with
  | Prepared _ _ _ _ _ => None
  | Asked op _ => Some op
  | Did op _ => Some op
  end.

(** Operations of mixed precision, and the direct step of an optimiser. *)
Definition mixed_precision (op : Op Obj) : bool :=
  match op with
  | SCALE _ _ | SCALER_STEP _ _ | SCALER_UPDATE _
  | AUTOCAST_ENTER _ | AUTOCAST_EXIT => true
  | _ => false
  end.

Definition direct_step (op : Op Obj) : bool :=
  match op with
  | STEP _ => true
  | _ => false
  end.

(** The calls a trainer makes: on its own networks, optimisers, inferers
    and loss functions, with the scaler of a phase where that phase uses
    one and the direct step where it does not. *)
Definition issues (e : AdversarialTrainer Obj) (op : Op Obj) : Prop :=
  let g := if amp e then g_scaler e else None in
  let d := if amp e then d_scaler e else None in
  match op with
  | TRAIN m => m = g_network e \/ m = d_network e
  | OPTIMIZER_ZERO_GRAD o b => o = g_optimizer e /\ b = optim_set_to_none e
  | MODULE_ZERO_GRAD m b => m = d_network e /\ b = optim_set_to_none e
  | INFER i _ n _ =>
      (i = g_inferer e /\ n = g_network e) \/ (i = d_inferer e /\ n = d_network e)
  | LOSS_CALL f _ =>
      f = recon_loss_function e \/ f = g_loss_function e \/ f = d_loss_function e
  | STEP o => (g = None /\ o = g_optimizer e) \/ (d = None /\ o = d_optimizer e)
  | SCALE scaler _ => g = Some scaler \/ d = Some scaler
  | SCALER_UPDATE scaler => g = Some scaler \/ d = Some scaler
  | SCALER_STEP scaler o =>
      (g = Some scaler /\ o = g_optimizer e) \/ (d = Some scaler /\ o = d_optimizer e)
  | AUTOCAST_ENTER kwargs => kwargs = amp_kwargs e /\ (is_Some g \/ is_Some d)
  | AUTOCAST_EXIT => is_Some g \/ is_Some d
  | FIRE_EVENT ev => ev = DISCRIMINATOR_BACKWARD_COMPLETED -> is_Some d
  | FLOAT _ | CONTIGUOUS _ | DETACH _ | MEAN _ | ADD _ _ | BACKWARD _ => True
  end.

Definition permitted (e : AdversarialTrainer Obj) (a : Action Obj) : Prop :=
  match a with
  | Prepared _ dev nb kw _ =>
      dev = device e /\ nb = non_blocking e /\ kw = to_kwargs e
  | Asked op _ => issues e op
  | Did op _ => issues e op
  end.

(** [kept d d']: the record [d'] holds the same object under PRED and
    FAKES, and what [d] holds under REALS and IMAGE. *)
Definition kept (d d' : gmap Key Obj) : Prop :=
  d' !! PRED = d' !! FAKES /\
  d' !! REALS = d !! REALS /\
  d' !! IMAGE = d !! IMAGE.

End Readings.

(** ** Runs, whatever their outcome *)

Section AllRuns.

Context {Obj : Type} `{Countable Obj} {World Tensor : Type}.

(** [adds P m]: every run of [m], whether it returns or raises, only adds
    entries to the trace, and the entries added satisfy [P]. *)
Definition adds (P : list (Action Obj) -> Prop) {A}
    (m : @M Obj _ _ World Tensor A) : Prop :=
  forall s, exists new, trace (m s).2 = trace s ++ new /\ P new.


(** [ends d m Q]: run with the record [d] in [engine.state.output], [m]
    leaves there a record that, with the outcome of the run, satisfies
    [Q]. *)
Definition ends (d : gmap Key Obj) {A} (m : @M Obj _ _ World Tensor A)
    (Q : Outcome Obj A -> gmap Key Obj -> Prop) : Prop :=
  forall tr h,
  exists d',
    output (m {| output := Some d; trace := tr; heap := h |}).2 = Some d' /\
    Q (m {| output := Some d; trace := tr; heap := h |}).1 d'.

(** The record in [engine.state.output], if there is one, holds the same
    object under PRED and FAKES (or holds neither), and the same object
    under REALS and IMAGE. *)
Definition aliasing (o : option (gmap Key Obj)) : Prop :=
  forall d, o = Some d ->
    d !! PRED = d !! FAKES /\ d !! REALS = d !! IMAGE.

End AllRuns.

(** ** The warnings of the state export *)

(** The warning [get_state] issues for a switch that is disabled, and the
    one it issues for a switch that is enabled when the sub-state does not
    exist (only a scaler or the state of a loss function can be missing). *)
Definition off_warning (sw : Switch) : string :=
  match sw with
  | INCLUDE_ENGINE =>
      "Engine state not included in checkpoint. This might cause issues when resuming training."
  | INCLUDE_GENERATOR =>
      "Generator state not included in checkpoint. This might cause issues when resuming training."
  | INCLUDE_GENERATOR_OPTIMISER =>
      "Generator optimizer state not included in checkpoint. This might cause issues when resuming training."
  | INCLUDE_GENERATOR_SCALER =>
      "Generator AMP scaler state not included in checkpoint. This might cause issues when resuming training."
  | INCLUDE_GENERATOR_LOSS =>
      "Generator loss function state not included in checkpoint. This might cause issues when resuming training."
  | INCLUDE_DISCRIMINATOR =>
      "Discriminator state not included in checkpoint. This might cause issues when resuming training."
  | INCLUDE_DISCRIMINATOR_OPTIMISER =>
      "Discriminator optimizer state not included in checkpoint. This might cause issues when resuming training."
  | INCLUDE_DISCRIMINATOR_SCALER =>
      "Discriminator AMP scaler state not included in checkpoint. This might cause issues when resuming training."
  | INCLUDE_DISCRIMINATOR_LOSS =>
      "Discriminator loss function state not included in checkpoint. This might cause issues when resuming training."
  end.

Definition missing_warning (sw : Switch) : string :=
  match sw with
  | INCLUDE_GENERATOR_SCALER =>
      "Generator AMP scaler was required in checkpoint but not found due to AMP being disabled."
  | INCLUDE_GENERATOR_LOSS =>
      "Generator loss does not have a state_dict method. Make sure this is the intended behaviour."
  | INCLUDE_DISCRIMINATOR_SCALER =>
      "Discriminator AMP scaler was required in checkpoint but not found due to AMP being disabled."
  | INCLUDE_DISCRIMINATOR_LOSS =>
      "Discriminator loss does not have a state_dict method. Make sure this is the intended behaviour."
  | _ => ""
  end.

Section Warnings.

Context {Obj StateDict : Type}.
Variable engine_state_dict : StateDict.
Variable state_dict : Obj -> StateDict.
Variable loss_state_dict : Obj -> option StateDict.

(** The warnings of one switch: none when it is enabled and its sub-state
    exists. *)
Definition switch_warning (self : AdversarialTrainer Obj) (inc : Includes)
    (sw : Switch) : list string :=
  if switch_on inc sw then
    match substate engine_state_dict state_dict loss_state_dict self sw with
    | Some _ => []
    | None => [missing_warning sw]
    end
  else [off_warning sw].

End Warnings.

(** ** The two phases of an iteration *)

Inductive Phase : Type := GENERATOR_PHASE | DISCRIMINATOR_PHASE.

Section PhaseCalls.

Context {Obj : Type}.

(** The scaler a phase uses: [engine.amp and scaler is not None]. *)
Definition phase_scaler (e : AdversarialTrainer Obj) (ph : Phase) :
    option Obj :=
  if amp e then
    match ph with
    | GENERATOR_PHASE => g_scaler e
    | DISCRIMINATOR_PHASE => d_scaler e
    end
  else None.

(** The calls of the generator phase: on the generator's network,
    optimiser, inferer and loss functions (and the discriminator's network
    through its inferer), with the generator's scaler and an autocast
    scope when the phase uses the scaler and the direct step of the
    generator's optimiser when it does not; no [detach], no zeroing of a
    module, none of the discriminator's events. *)
Definition generator_issues (e : AdversarialTrainer Obj) (op : Op Obj) :
    Prop :=
  let g := phase_scaler e GENERATOR_PHASE in
  match op with
  | TRAIN m => m = g_network e
  | OPTIMIZER_ZERO_GRAD o b => o = g_optimizer e /\ b = optim_set_to_none e
  | MODULE_ZERO_GRAD _ _ => False
  | INFER i _ n _ =>
      (i = g_inferer e /\ n = g_network e) \/ (i = d_inferer e /\ n = d_network e)
  | LOSS_CALL f _ => f = recon_loss_function e \/ f = g_loss_function e
  | STEP o => g = None /\ o = g_optimizer e
  | SCALE scaler _ => g = Some scaler
  | SCALER_UPDATE scaler => g = Some scaler
  | SCALER_STEP scaler o => g = Some scaler /\ o = g_optimizer e
  | AUTOCAST_ENTER kwargs => kwargs = amp_kwargs e /\ is_Some g
  | AUTOCAST_EXIT => is_Some g
  | FIRE_EVENT ev =>
      match ev with
      | GENERATOR_FORWARD_COMPLETED
      | GENERATOR_DISCRIMINATOR_FORWARD_COMPLETED
      | RECONSTRUCTION_LOSS_COMPLETED
      | GENERATOR_LOSS_COMPLETED
      | GENERATOR_BACKWARD_COMPLETED
      | GENERATOR_MODEL_COMPLETED => True
      | _ => False
      end
  | DETACH _ => False
  | FLOAT _ | CONTIGUOUS _ | MEAN _ | ADD _ _ | BACKWARD _ => True
  end.

(** The calls of the discriminator phase: on the discriminator's network,
    optimiser, inferer and loss function only, with the discriminator's
    scaler and an autocast scope when the phase uses the scaler and the
    direct step of the discriminator's optimiser when it does not; the
    event DISCRIMINATOR_BACKWARD_COMPLETED only with the scaler; no
    [float], no addition, no zeroing of an optimiser, none of the
    generator's events. *)
Definition discriminator_issues (e : AdversarialTrainer Obj) (op : Op Obj) :
    Prop :=
  let d := phase_scaler e DISCRIMINATOR_PHASE in
  match op with
  | TRAIN m => m = d_network e
  | OPTIMIZER_ZERO_GRAD _ _ => False
  | MODULE_ZERO_GRAD m b => m = d_network e /\ b = optim_set_to_none e
  | INFER i _ n _ => i = d_inferer e /\ n = d_network e
  | LOSS_CALL f _ => f = d_loss_function e
  | STEP o => d = None /\ o = d_optimizer e
  | SCALE scaler _ => d = Some scaler
  | SCALER_UPDATE scaler => d = Some scaler
  | SCALER_STEP scaler o => d = Some scaler /\ o = d_optimizer e
  | AUTOCAST_ENTER kwargs => kwargs = amp_kwargs e /\ is_Some d
  | AUTOCAST_EXIT => is_Some d
  | FIRE_EVENT ev =>
      match ev with
      | DISCRIMINATOR_REALS_FORWARD_COMPLETED
      | DISCRIMINATOR_FAKES_FORWARD_COMPLETED
      | DISCRIMINATOR_LOSS_COMPLETED => True
      | DISCRIMINATOR_BACKWARD_COMPLETED => is_Some d
      | _ => False
      end
  | FLOAT _ | ADD _ _ => False
  | CONTIGUOUS _ | DETACH _ | MEAN _ | BACKWARD _ => True
  end.

Definition issues_in (ph : Phase) (e : AdversarialTrainer Obj)
    (op : Op Obj) : Prop :=
  match ph with
  | GENERATOR_PHASE => generator_issues e op
  | DISCRIMINATOR_PHASE => discriminator_issues e op
  end.

(** An entry of the trace that a phase may add: a call of the phase
    (never [prepare_batch]). *)
Definition permitted_in (ph : Phase) (e : AdversarialTrainer Obj)
    (a : Action Obj) : Prop :=
  match a with
  | Prepared _ _ _ _ _ => False
  | Asked op _ => issues_in ph e op
  | Did op _ => issues_in ph e op
  end.

End PhaseCalls.

(** ** A small concrete instance

    Objects are numbered; every call returns the next unused number, so that
    no two calls return the same object.  It is used to run the definitions
    above on concrete inputs. *)

Module Toy.

Definition ToyHeap : Type := @Heap nat _ _ nat nat.

Definition ToyState : Type := @State nat _ _ nat nat.

Definition zeros (t : nat) : nat := 0.

Definition library (op : Op nat) (h : ToyHeap) : Outcome nat nat * ToyHeap :=
  (Returns (world h), {| grads := grads h; world := S (world h) |}).

Definition prepare_batch (batchdata device : nat) (non_blocking : bool)
    (to_kwargs : nat) (h : ToyHeap) : Outcome nat (list nat) * ToyHeap :=
  (Returns [world h; S (world h)],
   {| grads := grads h; world := S (S (world h)) |}).

(** The discriminator optimiser manages parameter 23, which is not a
    parameter of the discriminator network. *)
Definition settings (amp : bool) : Settings nat :=
  {| s_device := 1;
     s_non_blocking := false;
     s_to_kwargs := 2;
     s_amp := amp;
     s_amp_kwargs := 3;
     s_g_network := {| module_ref := 4; parameters := [10; 11] |};
     s_g_optimizer := {| optimizer_ref := 5; param_groups := [[10; 11]] |};
     s_g_loss_function := 6;
     s_recon_loss_function := 7;
     s_d_network := {| module_ref := 8; parameters := [20; 21] |};
     s_d_optimizer := {| optimizer_ref := 9; param_groups := [[20; 21]; [23]] |};
     s_d_loss_function := 12;
     s_g_inferer := None;
     s_d_inferer := None;
     s_optim_set_to_none := false |}.

Definition created : Created nat :=
  {| new_g_inferer := 13; new_d_inferer := 14;
     new_g_scaler := 15; new_d_scaler := 16 |}.

Definition trainer (amp : bool) : AdversarialTrainer nat :=
  __init__ (settings amp) created.

Definition start : ToyState :=
  {| output := None;
     trace := [];
     heap := {| grads := <[23 := 5]> (<[20 := 7]> (<[10 := 9]> ∅));
                world := 100 |} |}.

Definition iteration (amp : bool) (batchdata : option nat) :
    Outcome nat (option (gmap Key nat)) * ToyState :=
  _iteration zeros prepare_batch library (trainer amp) batchdata start.

(** A [prepare_batch] that returns three components. *)
Definition prepare_three_components (batchdata device : nat)
    (non_blocking : bool) (to_kwargs : nat) (h : ToyHeap) :
    Outcome nat (list nat) * ToyHeap :=
  (Returns [world h; S (world h); S (S (world h))],
   {| grads := grads h; world := S (S (S (world h))) |}).

(** The same collaborators, except that [backward] raises. *)
Definition library_without_backward (op : Op nat) (h : ToyHeap) :
    Outcome nat nat * ToyHeap :=
  match op with
  | BACKWARD _ => (Raises (Raised 99), h)
  | _ => library op h
  end.

Definition interrupted_iteration (amp : bool) :
    Outcome nat (option (gmap Key nat)) * ToyState :=
  _iteration zeros prepare_batch library_without_backward (trainer amp)
    (Some 50) start.

(** The state an iteration on batch data 50 ends in, and the records it
    returns in the two precision modes. *)
Definition final (amp : bool) : ToyState := (iteration amp (Some 50)).2.

Definition record_without_amp : gmap Key nat :=
  <[DISCRIMINATOR_LOSS := 130]>
    (<[FAKE_LOGITS := 127]>
       (<[REAL_LOGITS := 123]>
          (<[GENERATOR_LOSS := 113]>
             (<[RECONSTRUCTION_LOSS := 110]>
                (<[PRED := 103]>
                   (<[FAKES := 103]>
                      (<[REALS := 100]>
                         (<[LABEL := 101]>
                            (<[IMAGE := 100]> ∅))))))))).

Definition record_with_amp : gmap Key nat :=
  <[DISCRIMINATOR_LOSS := 135]>
    (<[FAKE_LOGITS := 132]>
       (<[REAL_LOGITS := 128]>
          (<[LOSS := 117]>
             (<[GENERATOR_LOSS := 114]>
                (<[RECONSTRUCTION_LOSS := 111]>
                   (<[PRED := 104]>
                      (<[FAKES := 104]>
                         (<[REALS := 100]>
                            (<[LABEL := 101]>
                               (<[IMAGE := 100]> ∅)))))))))).

(** The state export of the instance: the state of object [o] is the
    number [1000 + o]; the generator loss has a [state_dict] method, the
    discriminator loss has none. *)
Definition engine_state_dict : nat := 1000.

Definition state_dict (o : nat) : nat := 1000 + o.

Definition loss_state_dict (o : nat) : option nat :=
  if decide (o = 6) then Some 1006 else None.

Definition all_on : Includes := includes_of (fun _ => true).

(** Additional states whose key collides with that of a switch. *)
Definition additional : gmap string nat := {[ "engine" := 7 ]}.

Definition export (amp : bool) (inc : Includes)
    (additional_states : option (gmap string nat)) : gmap string nat * list string :=
  get_state engine_state_dict state_dict loss_state_dict (trainer amp) inc
    additional_states.

End Toy.

(** * Properties of the iteration *)

Section IterationFacts.

Context {Obj : Type} `{Countable Obj} {World Tensor : Type}.
Variable zeros : Tensor -> Tensor.
Variable prepare_batch :
  Obj -> Obj -> bool -> Obj -> @Heap Obj _ _ World Tensor ->
  Outcome Obj (list Obj) * @Heap Obj _ _ World Tensor.
Variable library :
  Op Obj -> @Heap Obj _ _ World Tensor ->
  Outcome Obj Obj * @Heap Obj _ _ World Tensor.

Abbreviation State := (@State Obj _ _ World Tensor).
Abbreviation M := (@M Obj _ _ World Tensor).
Abbreviation ask := (ask library).
Abbreviation perform := (perform zeros library).
Abbreviation fire_event := (fire_event zeros library).
Abbreviation iteration := (_iteration zeros prepare_batch library).

Implicit Types (s : State) (e : AdversarialTrainer Obj) (k : Key).

(** ** Inversion of a run that returns *)

Lemma bind_Returns {A B} (m : M A) (f : A -> M B) s b s' :
  bind m f s = (Returns b, s') ->
  exists a s1, m s = (Returns a, s1) /\ f a s1 = (Returns b, s').
Proof.
  unfold bind. destruct (m s) as [[a|x] s1]; [eauto | discriminate].
Qed.

Lemma ask_Returns op s o s' :
  ask op s = (Returns o, s') ->
  exists h,
    s' = {| output := output s; trace := trace s ++ [got op o]; heap := h |}.
Proof.
  unfold ask, log, got. simpl. intros [= Ho <-].
  rewrite Ho. eauto.
Qed.

Lemma perform_Returns op s u s' :
  perform op s = (Returns u, s') ->
  s' = {| output := output s; trace := trace s ++ [did op];
          heap := (exec_statement zeros library op (heap s)).2 |}.
Proof.
  unfold perform, log, did. simpl. intros [= Ho <-].
  destruct u. by rewrite Ho.
Qed.

Lemma fire_event_Returns ev s u s' :
  fire_event ev s = (Returns u, s') ->
  s' = {| output := output s; trace := trace s ++ [did (FIRE_EVENT ev)];
          heap := (exec_statement zeros library (FIRE_EVENT ev) (heap s)).2 |}.
Proof. apply perform_Returns. Qed.

Lemma store_Returns k v s u s' :
  store k v s = (Returns u, s') ->
  exists d, output s = Some d /\
    s' = {| output := Some (<[k := v]> d); trace := trace s; heap := heap s |}.
Proof.
  unfold store. destruct (output s) as [d|]; [|discriminate].
  intros [= <-]. eauto.
Qed.

Lemma load_Returns k s v s' :
  load k s = (Returns v, s') ->
  s' = s /\ exists d, output s = Some d /\ d !! k = Some v.
Proof.
  unfold load. destruct (output s) as [d|]; [|discriminate].
  destruct (d !! k) as [w|] eqn:Hk; [|discriminate].
  intros [= <- <-]. eauto.
Qed.

Lemma with_autocast_Returns {A} kwargs (body : M A) s a s' :
  with_autocast zeros library kwargs body s = (Returns a, s') ->
  exists s1 s2,
    perform (AUTOCAST_ENTER kwargs) s = (Returns tt, s1) /\
    body s1 = (Returns a, s2) /\
    perform AUTOCAST_EXIT s2 = (Returns tt, s').
Proof.
  unfold with_autocast.
  destruct (perform (AUTOCAST_ENTER kwargs) s) as [[[]|x] s1] eqn:Henter;
    [|discriminate].
  destruct (body s1) as [r s2] eqn:Hbody.
  destruct (perform AUTOCAST_EXIT s2) as [[[]|x] s3] eqn:Hexit; [|discriminate].
  intros [= -> <-]. eauto.
Qed.


(** One statement of a run that returns: split the sequence at its first
    statement, invert that statement, and normalise the state reached. *)
Ltac lookup_in H :=
  repeat (rewrite lookup_insert in H; simpl in H);
  try match type of H with
      | ?d !! ?k = _ =>
          match goal with
          | Hd : d !! k = Some _ |- _ =>
              assert_fails (constr_eq Hd H); rewrite Hd in H
          end
      end;
  try (injection H as <-).

Ltac invert_statement Hm :=
  first
    [ apply ask_Returns in Hm as [? ->]
    | apply fire_event_Returns in Hm as ->
    | apply perform_Returns in Hm as ->
    | apply store_Returns in Hm as (? & [= <-] & ->)
    | let Hk := fresh "Hk" in
      apply load_Returns in Hm as (-> & ? & [= <-] & Hk); lookup_in Hk ].

Ltac run_step H :=
  let Hm := fresh "Hm" in
  apply bind_Returns in H as (? & ? & Hm & H);
  cbn [output trace heap] in Hm;
  invert_statement Hm;
  cbn [output trace heap] in H.

Ltac run_last H :=
  cbn [output trace heap] in H; invert_statement H.

Lemma compute_generator_loss_Returns e inputs targets extra d tr h u s' :
  _compute_generator_loss zeros library e inputs targets extra
    {| output := Some d; trace := tr; heap := h |} = (Returns u, s') ->
  exists g h',
    s' = {| output := Some (generator_loss_output g d);
            trace := tr ++ generator_loss_script e inputs targets extra g;
            heap := h' |}.
Proof.
  unfold _compute_generator_loss. intros Hrun.
  repeat run_step Hrun. run_last Hrun.
  cbn [output trace heap]. rewrite <- !(assoc_L (++)).
  by eexists {| fakes := _ |}, _.
Qed.


Lemma compute_discriminator_loss_Returns e extra the_reals the_fakes d tr h u s' :
  d !! REALS = Some the_reals ->
  d !! FAKES = Some the_fakes ->
  _compute_discriminator_loss zeros library e extra
    {| output := Some d; trace := tr; heap := h |} = (Returns u, s') ->
  exists x h',
    s' = {| output := Some (discriminator_loss_output x d);
            trace := tr ++ discriminator_loss_script e extra the_reals the_fakes x;
            heap := h' |}.
Proof.
  unfold _compute_discriminator_loss. intros Hreals Hfakes Hrun.
  repeat run_step Hrun. run_last Hrun.
  cbn [output trace heap]. rewrite <- !(assoc_L (++)).
  by eexists {| reals_contiguous := _ |}, _.
Qed.

Lemma with_autocast_trace {A} kwargs (body : M A) d tr h a s' :
  with_autocast zeros library kwargs body
    {| output := Some d; trace := tr; heap := h |} = (Returns a, s') ->
  exists h1 s2,
    body {| output := Some d; trace := tr ++ [did (AUTOCAST_ENTER kwargs)];
            heap := h1 |} = (Returns a, s2) /\
    s' = {| output := output s2; trace := trace s2 ++ [did AUTOCAST_EXIT];
            heap := (exec_statement zeros library AUTOCAST_EXIT (heap s2)).2 |}.
Proof.
  intros (s1 & s2 & Henter & Hbody & Hexit)%with_autocast_Returns.
  apply perform_Returns in Henter as ->. apply perform_Returns in Hexit as ->.
  eauto.
Qed.

Lemma train_generator_Returns e inputs targets extra d tr h u s' :
  train_generator zeros library e inputs targets extra
    {| output := Some d; trace := tr; heap := h |} = (Returns u, s') ->
  exists g loss loss_scaled h',
    s' = {| output := Some (generator_output e g loss d);
            trace := tr ++ generator_script e inputs targets extra g loss loss_scaled;
            heap := h' |}.
Proof.
  unfold train_generator, generator_script, generator_output, scaler_in_use.
  intros Hrun. repeat run_step Hrun.
  apply bind_Returns in Hrun as ([] & s1 & Hbranch & Hrun).
  apply fire_event_Returns in Hrun as ->.
  destruct (if amp e then g_scaler e else None) as [scaler|].
  - apply bind_Returns in Hbranch as ([] & s2 & Hbody & Hbranch).
    apply with_autocast_trace in Hbody as (h1 & s3 & Hbody & ->).
    apply compute_generator_loss_Returns in Hbody as (g & h2 & ->).
    unfold generator_loss_output in Hbranch.
    repeat run_step Hbranch. run_last Hbranch.
    cbn [output trace heap]. rewrite <- !(assoc_L (++)).
    by eexists g, _, _, _.
  - apply bind_Returns in Hbranch as ([] & s2 & Hbody & Hbranch).
    apply compute_generator_loss_Returns in Hbody as (g & h2 & ->).
    unfold generator_loss_output in Hbranch.
    repeat run_step Hbranch. run_last Hbranch.
    cbn [output trace heap]. rewrite <- !(assoc_L (++)).
    by eexists g, _, (gen_mean g), _.
Qed.

Lemma train_discriminator_Returns e extra the_reals the_fakes d tr h u s' :
  d !! REALS = Some the_reals ->
  d !! FAKES = Some the_fakes ->
  train_discriminator zeros library e extra
    {| output := Some d; trace := tr; heap := h |} = (Returns u, s') ->
  exists x loss_scaled h',
    s' = {| output := Some (discriminator_loss_output x d);
            trace := tr ++ discriminator_script e extra the_reals the_fakes x loss_scaled;
            heap := h' |}.
Proof.
  unfold train_discriminator, discriminator_script, scaler_in_use.
  intros Hreals Hfakes Hrun. repeat run_step Hrun.
  destruct (if amp e then d_scaler e else None) as [scaler|].
  - apply bind_Returns in Hrun as ([] & s2 & Hbody & Hrun).
    apply with_autocast_trace in Hbody as (h1 & s3 & Hbody & ->).
    apply (compute_discriminator_loss_Returns _ _ _ _ _ _ _ _ _ Hreals Hfakes)
      in Hbody as (dv & h2 & ->).
    unfold discriminator_loss_output in Hrun.
    repeat run_step Hrun. run_last Hrun.
    cbn [output trace heap]. rewrite <- !(assoc_L (++)).
    by eexists dv, _, _.
  - apply bind_Returns in Hrun as ([] & s2 & Hbody & Hrun).
    apply (compute_discriminator_loss_Returns _ _ _ _ _ _ _ _ _ Hreals Hfakes)
      in Hbody as (dv & h2 & ->).
    unfold discriminator_loss_output in Hrun.
    repeat run_step Hrun. run_last Hrun.
    cbn [output trace heap]. rewrite <- !(assoc_L (++)).
    by eexists dv, (d_loss_mean dv), _.
Qed.


Lemma prepare_Returns e batchdata s batch s' :
  prepare prepare_batch e batchdata s = (Returns batch, s') ->
  exists h,
    s' = {| output := output s;
            trace := trace s ++ [Prepared batchdata (device e) (non_blocking e)
                                   (to_kwargs e) (Returns batch)];
            heap := h |}.
Proof.
  unfold prepare, log. simpl. intros [= Hb <-]. rewrite Hb. eauto.
Qed.

Lemma unpack_Returns (batch : list Obj) s inputs targets extra s' :
  unpack batch s = (Returns (inputs, targets, extra), s') ->
  s' = s /\ batch = batch_of inputs targets extra.
Proof.
  unfold unpack, ret, raise.
  destruct batch as [|a [|b [|c [|d [|? ?]]]]]; simpl;
    intros [=]; by subst.
Qed.

Lemma generator_output_REALS e g loss d :
  generator_output e g loss d !! REALS = d !! REALS.
Proof.
  unfold generator_output, generator_loss_output.
  destruct (if amp e then g_scaler e else None);
    by repeat (rewrite lookup_insert; simpl).
Qed.

Lemma generator_output_FAKES e g loss d :
  generator_output e g loss d !! FAKES = Some (fakes g).
Proof.
  unfold generator_output, generator_loss_output.
  destruct (if amp e then g_scaler e else None);
    by repeat (rewrite lookup_insert; simpl).
Qed.

(** A run of [_iteration] that returns has followed the script: it returns
    the record [engine.state.output] holds, and has made exactly the calls
    of the script, in that order. *)
Lemma iteration_Returns e batchdata s r s' :
  iteration e (Some batchdata) s = (Returns r, s') ->
  exists v,
    r = Some (script_output e v) /\
    output s' = Some (script_output e v) /\
    trace s' = trace s ++ script e batchdata v.
Proof.
  unfold _iteration. intros Hrun.
  apply bind_Returns in Hrun as (batch & s1 & Hprep & Hrun).
  apply prepare_Returns in Hprep as [h1 ->].
  apply bind_Returns in Hrun as ([[inputs targets] extra] & s2 & Hun & Hrun).
  apply unpack_Returns in Hun as [-> ->].
  apply bind_Returns in Hrun as ([] & s3 & Hini & Hrun).
  injection Hini as <-. cbn [output trace heap] in Hrun.
  apply bind_Returns in Hrun as ([] & s4 & Hgen & Hrun).
  apply train_generator_Returns in Hgen as (g & loss & loss_scaled & h2 & ->).
  apply bind_Returns in Hrun as ([] & s5 & Hdis & Hrun).
  apply (train_discriminator_Returns e extra inputs (fakes g)) in Hdis
    as (dv & d_loss_scaled & h3 & ->).
  - injection Hrun as <- <-. cbn [output trace heap].
    exists {| v_inputs := inputs; v_targets := targets; v_extra := extra;
              v_g := g; v_loss := loss; v_loss_scaled := loss_scaled;
              v_d := dv; v_d_loss_scaled := d_loss_scaled |}.
    unfold script, script_output, initial_output. cbn [v_inputs v_targets v_extra v_g v_loss v_loss_scaled v_d v_d_loss_scaled].
    by rewrite <- !(assoc_L (++)).
  - rewrite generator_output_REALS. by repeat (rewrite lookup_insert; simpl).
  - apply generator_output_FAKES.
Qed.


(** ** What the constructor establishes *)

Lemma init_g_scaler_in_use (cfg : Settings Obj) (c : Created Obj) :
  (if amp (__init__ cfg c) then g_scaler (__init__ cfg c) else None)
  = if s_amp cfg then Some (new_g_scaler c) else None.
Proof. simpl. by destruct (s_amp cfg). Qed.

Lemma init_d_scaler_in_use (cfg : Settings Obj) (c : Created Obj) :
  (if amp (__init__ cfg c) then d_scaler (__init__ cfg c) else None)
  = if s_amp cfg then Some (new_d_scaler c) else None.
Proof. simpl. by destruct (s_amp cfg). Qed.

(** ** The record an iteration returns *)

Ltac unfold_output :=
  unfold script_output, discriminator_loss_output, generator_output,
    generator_loss_output, initial_output.

Ltac lookup_output := repeat (rewrite lookup_insert; simpl).

Lemma script_output_dom e v :
  dom (script_output e v)
  = {[ IMAGE; LABEL; REALS; FAKES; PRED; FAKE_LOGITS; RECONSTRUCTION_LOSS;
       GENERATOR_LOSS; REAL_LOGITS; DISCRIMINATOR_LOSS ]}
    ∪ (match (if amp e then g_scaler e else None) with
       | Some _ => {[ LOSS ]}
       | None => ∅
       end).
Proof.
  unfold_output.
  destruct (if amp e then g_scaler e else None);
    rewrite !dom_insert_L, dom_empty_L; set_solver.
Qed.

(** ** Gradient zeroing *)

Lemma zero_grad_of_other b (g : gmap Obj Tensor) p q :
  p ≠ q -> zero_grad_of zeros b g q !! p = g !! p.
Proof.
  intros Hne. unfold zero_grad_of. destruct (g !! q); [|done].
  destruct b; [by rewrite lookup_delete_ne | by rewrite lookup_insert_ne].
Qed.

Lemma zero_grads_other b ps (h : @Heap Obj _ _ World Tensor) p :
  p ∉ ps -> grads (zero_grads zeros b ps h) !! p = grads h !! p.
Proof.
  unfold zero_grads; simpl. generalize (grads h).
  induction ps as [|q ps IH]; intros g Hp; [done|].
  apply not_elem_of_cons in Hp as [Hne Hp]. simpl.
  rewrite IH by done. by apply zero_grad_of_other.
Qed.


(** ** Iterations whose collaborators do not raise *)

Lemma returns_bind {A B} (m : M A) (f : A -> M B) s Q :
  returns m s (fun a s1 => returns (f a) s1 Q) -> returns (bind m f) s Q.
Proof.
  intros (a & s1 & Hm & b & s2 & Hf & HQ). exists b, s2.
  unfold bind. by rewrite Hm.
Qed.

Lemma returns_weaken {A} (m : M A) s (Q Q' : A -> State -> Prop) :
  returns m s Q -> (forall a s', Q a s' -> Q' a s') -> returns m s Q'.
Proof. intros (a & s' & Hm & HQ) HQ'. exists a, s'. auto. Qed.

Lemma returns_ask op s (Q : Obj -> State -> Prop) :
  never_raises library ->
  (forall o h,
     Q o {| output := output s; trace := trace s ++ [got op o]; heap := h |}) ->
  returns (ask op) s Q.
Proof.
  intros Hlib HQ. destruct (Hlib op (heap s)) as [o Ho].
  eexists o, _. split; [|apply HQ].
  unfold ask, log, got. simpl. by rewrite Ho.
Qed.

Lemma returns_perform op s (Q : unit -> State -> Prop) :
  never_raises library ->
  (forall h,
     Q tt {| output := output s; trace := trace s ++ [did op]; heap := h |}) ->
  returns (perform op) s Q.
Proof.
  intros Hlib HQ.
  assert ((exec_statement zeros library op (heap s)).1 = Returns tt) as Hop.
  { destruct (Hlib op (heap s)) as [o Ho].
    destruct op; simpl; try done; by rewrite Ho. }
  eexists tt, _. split; [|apply HQ].
  unfold perform, log, did. simpl. by rewrite Hop.
Qed.

Lemma returns_store k v d tr h (Q : unit -> State -> Prop) :
  Q tt {| output := Some (<[k := v]> d); trace := tr; heap := h |} ->
  returns (store k v) {| output := Some d; trace := tr; heap := h |} Q.
Proof. intros HQ. by eexists tt, _. Qed.

Lemma returns_load k v d tr h (Q : Obj -> State -> Prop) :
  d !! k = Some v ->
  Q v {| output := Some d; trace := tr; heap := h |} ->
  returns (load k) {| output := Some d; trace := tr; heap := h |} Q.
Proof.
  intros Hk HQ. exists v, {| output := Some d; trace := tr; heap := h |}.
  split; [|done]. unfold load. simpl. by rewrite Hk.
Qed.

Lemma returns_with_autocast {A} kwargs (body : M A) s Q :
  never_raises library ->
  (forall h,
     returns body
       {| output := output s; trace := trace s ++ [did (AUTOCAST_ENTER kwargs)];
          heap := h |}
       (fun a s2 =>
          forall h',
            Q a {| output := output s2; trace := trace s2 ++ [did AUTOCAST_EXIT];
                   heap := h' |})) ->
  returns (with_autocast zeros library kwargs body) s Q.
Proof.
  intros Hlib Hbody.
  destruct (returns_perform (AUTOCAST_ENTER kwargs) s (fun _ s1 => exists h,
    s1 = {| output := output s;
            trace := trace s ++ [did (AUTOCAST_ENTER kwargs)]; heap := h |}))
    as ([] & s1 & Henter & h1 & ->); [done | by eauto |].
  destruct (Hbody h1) as (a & s2 & Hrun & HQ).
  destruct (returns_perform AUTOCAST_EXIT s2 (fun _ s3 => exists h,
    s3 = {| output := output s2;
            trace := trace s2 ++ [did AUTOCAST_EXIT]; heap := h |}))
    as ([] & s3 & Hexit & h3 & ->); [done | by eauto |].
  eexists a, _. split; [|apply HQ].
  unfold with_autocast. by rewrite Henter, Hrun, Hexit.
Qed.

(** One statement of a run, forwards. *)
Ltac forward :=
  cbn [output trace heap];
  first
    [ apply returns_bind
    | apply returns_ask; [done | intros ? ?]
    | apply returns_perform; [done | intros ?]
    | apply returns_store
    | eapply returns_load; [by lookup_output |] ].

Lemma compute_generator_loss_returns e inputs targets extra d tr h :
  never_raises library ->
  returns (_compute_generator_loss zeros library e inputs targets extra)
    {| output := Some d; trace := tr; heap := h |}
    (fun _ s' => exists g h',
       s' = {| output := Some (generator_loss_output g d);
               trace := tr ++ generator_loss_script e inputs targets extra g;
               heap := h' |}).
Proof.
  intros Hlib. unfold _compute_generator_loss, fire_event.
  repeat forward.
  cbn [output trace heap]. rewrite <- !(assoc_L (++)).
  by eexists {| fakes := _ |}, _.
Qed.

Lemma compute_discriminator_loss_returns e extra the_reals the_fakes d tr h :
  never_raises library ->
  d !! REALS = Some the_reals ->
  d !! FAKES = Some the_fakes ->
  returns (_compute_discriminator_loss zeros library e extra)
    {| output := Some d; trace := tr; heap := h |}
    (fun _ s' => exists x h',
       s' = {| output := Some (discriminator_loss_output x d);
               trace := tr ++ discriminator_loss_script e extra the_reals the_fakes x;
               heap := h' |}).
Proof.
  intros Hlib Hreals Hfakes. unfold _compute_discriminator_loss, fire_event.
  repeat forward.
  cbn [output trace heap]. rewrite <- !(assoc_L (++)).
  by eexists {| reals_contiguous := _ |}, _.
Qed.


Lemma train_generator_returns e inputs targets extra d tr h :
  never_raises library ->
  returns (train_generator zeros library e inputs targets extra)
    {| output := Some d; trace := tr; heap := h |}
    (fun _ s' => exists g loss loss_scaled h',
       s' = {| output := Some (generator_output e g loss d);
               trace := tr ++ generator_script e inputs targets extra g loss loss_scaled;
               heap := h' |}).
Proof.
  intros Hlib.
  unfold train_generator, generator_script, generator_output, scaler_in_use,
    fire_event.
  do 4 forward. apply returns_bind.
  destruct (if amp e then g_scaler e else None) as [scaler|].
  - apply returns_bind, returns_with_autocast; [done|]. intros h_in.
    eapply returns_weaken; [by apply compute_generator_loss_returns|].
    intros [] s2 (g & h_body & ->) h_out. unfold generator_loss_output.
    repeat forward.
    cbn [output trace heap]. rewrite <- !(assoc_L (++)).
    by eexists g, _, _, _.
  - apply returns_bind.
    eapply returns_weaken; [by apply compute_generator_loss_returns|].
    intros [] s2 (g & h_body & ->). unfold generator_loss_output.
    repeat forward.
    cbn [output trace heap]. rewrite <- !(assoc_L (++)).
    by eexists g, _, (gen_mean g), _.
Qed.

Lemma train_discriminator_returns e extra the_reals the_fakes d tr h :
  never_raises library ->
  d !! REALS = Some the_reals ->
  d !! FAKES = Some the_fakes ->
  returns (train_discriminator zeros library e extra)
    {| output := Some d; trace := tr; heap := h |}
    (fun _ s' => exists x loss_scaled h',
       s' = {| output := Some (discriminator_loss_output x d);
               trace := tr ++ discriminator_script e extra the_reals the_fakes x loss_scaled;
               heap := h' |}).
Proof.
  intros Hlib Hreals Hfakes.
  unfold train_discriminator, discriminator_script, scaler_in_use, fire_event.
  do 4 forward.
  destruct (if amp e then d_scaler e else None) as [scaler|].
  - apply returns_bind, returns_with_autocast; [done|]. intros h_in.
    eapply returns_weaken;
      [by apply (compute_discriminator_loss_returns e extra the_reals the_fakes)|].
    intros [] s2 (dv & h_body & ->) h_out. unfold discriminator_loss_output.
    repeat forward.
    cbn [output trace heap]. rewrite <- !(assoc_L (++)).
    by eexists dv, _, _.
  - apply returns_bind.
    eapply returns_weaken;
      [by apply (compute_discriminator_loss_returns e extra the_reals the_fakes)|].
    intros [] s2 (dv & h_body & ->). unfold discriminator_loss_output.
    repeat forward.
    cbn [output trace heap]. rewrite <- !(assoc_L (++)).
    by eexists dv, (d_loss_mean dv), _.
Qed.

Lemma unpack_returns (batch : list Obj) s :
  length batch = 2 \/ length batch = 4 ->
  exists inputs targets extra,
    batch = batch_of inputs targets extra /\
    unpack batch s = (Returns (inputs, targets, extra), s).
Proof.
  destruct batch as [|a [|b [|c [|d [|? ?]]]]]; simpl; intros [?|?];
    try discriminate.
  - by exists a, b, NoExtra.
  - by exists a, b, (WithExtra c d).
Qed.

(** When no collaborator raises and [prepare_batch] gives a batch of two
    or four components, the iteration on a batch returns, with the record
    it has built, and has followed the script. *)
Lemma iteration_returns e batchdata s :
  never_raises library ->
  prepares_batches prepare_batch ->
  exists v s',
    iteration e (Some batchdata) s = (Returns (Some (script_output e v)), s') /\
    output s' = Some (script_output e v) /\
    trace s' = trace s ++ script e batchdata v.
Proof.
  intros Hlib Hprep.
  destruct (Hprep batchdata (device e) (non_blocking e) (to_kwargs e) (heap s))
    as (batch & Hbatch & Hlen).
  destruct (unpack_returns batch
              (log (Prepared batchdata (device e) (non_blocking e) (to_kwargs e)
                      (Returns batch))
                 (prepare_batch batchdata (device e) (non_blocking e)
                    (to_kwargs e) (heap s)).2 s) Hlen)
    as (inputs & targets & extra & -> & Hun).
  destruct (train_generator_returns e inputs targets extra
              (initial_output inputs targets)
              (trace s ++ [Prepared batchdata (device e) (non_blocking e)
                             (to_kwargs e)
                             (Returns (batch_of inputs targets extra))])
              (prepare_batch batchdata (device e) (non_blocking e)
                 (to_kwargs e) (heap s)).2 Hlib)
    as ([] & s1 & Hgen & g & loss & loss_scaled & h1 & ->).
  destruct (train_discriminator_returns e extra inputs (fakes g)
              (generator_output e g loss (initial_output inputs targets))
              ((trace s ++ [Prepared batchdata (device e) (non_blocking e)
                              (to_kwargs e)
                              (Returns (batch_of inputs targets extra))])
               ++ generator_script e inputs targets extra g loss loss_scaled)
              h1 Hlib)
    as ([] & s2 & Hdis & dv & d_loss_scaled & h2 & ->).
  { rewrite generator_output_REALS. unfold initial_output. by lookup_output. }
  { apply generator_output_FAKES. }
  exists {| v_inputs := inputs; v_targets := targets; v_extra := extra;
            v_g := g; v_loss := loss; v_loss_scaled := loss_scaled;
            v_d := dv; v_d_loss_scaled := d_loss_scaled |}.
  eexists. split; [|split].
  - unfold _iteration, bind, prepare. rewrite Hbatch, Hun.
    unfold assign_output, log. cbn [output trace heap].
    unfold initial_output in *. rewrite Hgen, Hdis. reflexivity.
  - reflexivity.
  - unfold script. cbn [trace v_inputs v_targets v_extra v_g v_loss
                        v_loss_scaled v_d v_d_loss_scaled].
    by rewrite <- !(assoc_L (++)).
Qed.


(** ** The events of every run *)

Lemma emits_bind {A B} (m : M A) (f : A -> M B) evs1 evs2 evs :
  emits m evs1 -> (forall a, emits (f a) evs2) -> evs = evs1 ++ evs2 ->
  emits (bind m f) evs.
Proof.
  intros Hm Hf -> s. unfold bind.
  destruct (Hm s) as (new1 & Htr1 & Hpre1 & Hall1).
  destruct (m s) as [[a|x] s1]; simpl in *.
  - destruct (Hf a s1) as (new2 & Htr2 & Hpre2 & Hall2).
    exists (new1 ++ new2). unfold events_of in *.
    rewrite Htr2, Htr1, omap_app, (Hall1 a eq_refl), (assoc_L (++)).
    split; [done|]. split; [by apply prefix_app|].
    intros b Hb. by rewrite (Hall2 b Hb).
  - exists new1. split; [done|]. split; [by apply prefix_app_r|done].
Qed.

Lemma emits_silent {A} (m : M A) :
  (forall s, (m s).2 = s) -> emits m [].
Proof. intros Hm s. exists []. by rewrite Hm, app_nil_r. Qed.

Lemma emits_ret {A} (a : A) : emits (ret a : M A) [].
Proof. by apply emits_silent. Qed.

Lemma emits_raise {A} x : emits (raise x : M A) [].
Proof. by apply emits_silent. Qed.

Lemma emits_load k : emits (load k : M Obj) [].
Proof.
  apply emits_silent. intros s. unfold load.
  destruct (output s) as [d|]; [|done]. by destruct (d !! k).
Qed.

Lemma emits_store k v : emits (store k v : M unit) [].
Proof.
  intros s. exists []. unfold store. rewrite app_nil_r.
  by destruct (output s).
Qed.

Lemma emits_assign_output d : emits (assign_output d : M unit) [].
Proof. intros s. exists []. by rewrite app_nil_r. Qed.

Lemma emits_unpack batch : emits (unpack batch : M _) [].
Proof.
  apply emits_silent. intros s. unfold unpack, ret, raise.
  by destruct batch as [|a [|b [|c [|d [|? ?]]]]].
Qed.

Lemma emits_prepare e batchdata : emits (prepare prepare_batch e batchdata) [].
Proof. intros s. by eexists [_]. Qed.

Lemma emits_ask op : emits (ask op) [].
Proof. intros s. by eexists [_]. Qed.

Lemma emits_fire_event ev : emits (fire_event ev) [ev].
Proof. intros s. by eexists [_]. Qed.

Lemma emits_perform op :
  fired (did op) = None -> emits (perform op) [].
Proof.
  intros Hop s. eexists [_]. split; [done|].
  unfold events_of. simpl. destruct op; try discriminate; done.
Qed.

Lemma emits_with_autocast {A} kwargs (body : M A) evs :
  emits body evs -> emits (with_autocast zeros library kwargs body) evs.
Proof.
  intros Hbody s. unfold with_autocast.
  destruct (emits_perform (AUTOCAST_ENTER kwargs) eq_refl s)
    as (new1 & Htr1 & Hev1 & _).
  apply prefix_nil_inv in Hev1.
  destruct (perform (AUTOCAST_ENTER kwargs) s) as [[[]|x] s1]; cbn [fst snd] in *.
  - destruct (Hbody s1) as (new2 & Htr2 & Hpre2 & Hall2).
    destruct (body s1) as [r s2]; cbn [fst snd] in *.
    destruct (emits_perform AUTOCAST_EXIT eq_refl s2)
      as (new3 & Htr3 & Hev3 & _).
    apply prefix_nil_inv in Hev3.
    assert (events_of (new1 ++ new2 ++ new3) = events_of new2) as Hev.
    { unfold events_of in *. by rewrite !omap_app, Hev1, Hev3, app_nil_r. }
    exists (new1 ++ new2 ++ new3). rewrite Hev.
    destruct (perform AUTOCAST_EXIT s2) as [[[]|x] s3]; cbn [fst snd] in *;
      rewrite Htr3, Htr2, Htr1, <- !(assoc_L (++)); [eauto|].
    by repeat split.
  - exists new1. rewrite Hev1. split; [done|]. split; [apply prefix_nil|done].
Qed.

(** One statement of a program, for its events. *)
Ltac emission :=
  first
    [ apply emits_fire_event
    | apply emits_ask
    | apply emits_perform; reflexivity
    | apply emits_load
    | apply emits_store
    | eapply emits_bind; [ | intros ? | ] ].

Lemma emits_compute_generator_loss e inputs targets extra :
  emits (_compute_generator_loss zeros library e inputs targets extra)
    [ GENERATOR_FORWARD_COMPLETED;
      GENERATOR_DISCRIMINATOR_FORWARD_COMPLETED;
      RECONSTRUCTION_LOSS_COMPLETED;
      GENERATOR_LOSS_COMPLETED ].
Proof. unfold _compute_generator_loss. repeat emission; reflexivity. Qed.

Lemma emits_compute_discriminator_loss e extra :
  emits (_compute_discriminator_loss zeros library e extra)
    [ DISCRIMINATOR_REALS_FORWARD_COMPLETED;
      DISCRIMINATOR_FAKES_FORWARD_COMPLETED;
      DISCRIMINATOR_LOSS_COMPLETED ].
Proof. unfold _compute_discriminator_loss. repeat emission; reflexivity. Qed.

Lemma emits_train_generator e inputs targets extra :
  emits (train_generator zeros library e inputs targets extra)
    [ GENERATOR_FORWARD_COMPLETED;
      GENERATOR_DISCRIMINATOR_FORWARD_COMPLETED;
      RECONSTRUCTION_LOSS_COMPLETED;
      GENERATOR_LOSS_COMPLETED;
      GENERATOR_BACKWARD_COMPLETED;
      GENERATOR_MODEL_COMPLETED ].
Proof.
  unfold train_generator.
  destruct (scaler_in_use (amp e) (g_scaler e)).
  - repeat first
      [ apply emits_with_autocast, emits_compute_generator_loss | emission ];
      reflexivity.
  - repeat first [ apply emits_compute_generator_loss | emission ];
      reflexivity.
Qed.

Lemma emits_train_discriminator e extra :
  emits (train_discriminator zeros library e extra)
    ([ DISCRIMINATOR_REALS_FORWARD_COMPLETED;
       DISCRIMINATOR_FAKES_FORWARD_COMPLETED;
       DISCRIMINATOR_LOSS_COMPLETED ]
     ++ match scaler_in_use (amp e) (d_scaler e) with
        | Some _ => [ DISCRIMINATOR_BACKWARD_COMPLETED ]
        | None => []
        end).
Proof.
  unfold train_discriminator.
  destruct (scaler_in_use (amp e) (d_scaler e)).
  - repeat first
      [ apply emits_with_autocast, emits_compute_discriminator_loss | emission ];
      reflexivity.
  - repeat first [ apply emits_compute_discriminator_loss | emission ];
      reflexivity.
Qed.

Lemma emits_iteration e batchdata :
  emits (iteration e batchdata)
    match batchdata with
    | Some _ => iteration_events_of (scaler_in_use (amp e) (d_scaler e))
    | None => []
    end.
Proof.
  unfold _iteration, iteration_events_of.
  destruct batchdata as [batchdata|]; [|apply emits_raise].
  eapply emits_bind; [apply emits_prepare | intros batch |].
  - eapply emits_bind; [apply emits_unpack | intros [[inputs targets] extra] |].
    + eapply emits_bind; [apply emits_assign_output | intros [] |].
      * eapply emits_bind; [apply emits_train_generator | intros [] |].
        -- eapply emits_bind; [apply emits_train_discriminator | intros [] |].
           ++ by apply emits_silent.
           ++ reflexivity.
        -- reflexivity.
      * reflexivity.
    + reflexivity.
  - by rewrite app_nil_r.
Qed.


(** ** The iteration: what the specification claims *)

(** C1: the record returned by an iteration of a trainer built by the
    constructor has the ten keys IMAGE, LABEL, REALS, FAKES, PRED,
    FAKE_LOGITS, RECONSTRUCTION_LOSS, GENERATOR_LOSS, REAL_LOGITS and
    DISCRIMINATOR_LOSS, and has the key LOSS exactly when mixed precision
    is enabled: the two precision modes do not return the same keys. *)
Theorem iteration_keys (cfg : Settings Obj) (c : Created Obj) batchdata s out s' :
  _iteration zeros prepare_batch library (__init__ cfg c) (Some batchdata) s = (Returns (Some out), s') ->
  dom out
  = {[ IMAGE; LABEL; REALS; FAKES; PRED; FAKE_LOGITS; RECONSTRUCTION_LOSS;
       GENERATOR_LOSS; REAL_LOGITS; DISCRIMINATOR_LOSS ]}
    ∪ (if s_amp cfg then {[ LOSS ]} else ∅)
  /\ (LOSS ∈ dom out <-> s_amp cfg = true).
Proof.
  intros (v & [= ->] & _ & _)%iteration_Returns.
  rewrite script_output_dom, init_g_scaler_in_use.
  destruct (s_amp cfg); split; try done; set_solver.
Qed.

(** C2: on a batch for which the collaborators do not raise, the iteration
    returns a record; and in the record any iteration returns, the entry
    PRED is the very object stored under FAKES, the object the generator's
    inferer returned, and the entry REALS is the very object stored under
    IMAGE, the first component of the prepared batch. *)
Theorem iteration_aliases e batchdata s :
  (never_raises library -> prepares_batches prepare_batch ->
   exists out s', _iteration zeros prepare_batch library e (Some batchdata) s = (Returns (Some out), s')) /\
  (forall out s',
     _iteration zeros prepare_batch library e (Some batchdata) s = (Returns (Some out), s') ->
     exists v,
       trace s' = trace s ++ script e batchdata v /\
       out !! PRED = Some (fakes (v_g v)) /\
       out !! FAKES = Some (fakes (v_g v)) /\
       out !! REALS = Some (v_inputs v) /\
       out !! IMAGE = Some (v_inputs v)).
Proof.
  split.
  - intros Hlib Hprep.
    destruct (iteration_returns e batchdata s Hlib Hprep) as (v & s' & Hrun & _).
    eauto.
  - intros out s' (v & [= ->] & _ & Htrace)%iteration_Returns.
    exists v. split; [done|]. unfold_output.
    by destruct (if amp e then g_scaler e else None); lookup_output.
Qed.

(** C3: without a batch the iteration raises the ValueError and leaves the
    state as it was: the output, the trace of calls and the heap are those
    before the call, so no collaborator has been called and no record has
    been written. *)
Theorem iteration_without_batch e s :
  _iteration zeros prepare_batch library e None s
  = (Raises (ValueError "Must provide batch data for current iteration."), s).
Proof. reflexivity. Qed.

(** C4: in every iteration of a trainer built by the constructor, the
    events fired are, in this order, the nine events from
    GENERATOR_FORWARD_COMPLETED to DISCRIMINATOR_LOSS_COMPLETED, followed by
    DISCRIMINATOR_BACKWARD_COMPLETED when, and only when, mixed precision
    is enabled: an iteration that returns has fired each of them once, an
    iteration that raises has fired the first ones of them, once each. *)
Theorem iteration_events (cfg : Settings Obj) (c : Created Obj) batchdata s :
  exists new,
    trace (_iteration zeros prepare_batch library (__init__ cfg c) (Some batchdata) s).2 = trace s ++ new /\
    events_of new `prefix_of`
      [ GENERATOR_FORWARD_COMPLETED;
        GENERATOR_DISCRIMINATOR_FORWARD_COMPLETED;
        RECONSTRUCTION_LOSS_COMPLETED;
        GENERATOR_LOSS_COMPLETED;
        GENERATOR_BACKWARD_COMPLETED;
        GENERATOR_MODEL_COMPLETED;
        DISCRIMINATOR_REALS_FORWARD_COMPLETED;
        DISCRIMINATOR_FAKES_FORWARD_COMPLETED;
        DISCRIMINATOR_LOSS_COMPLETED ]
      ++ (if s_amp cfg then [ DISCRIMINATOR_BACKWARD_COMPLETED ] else []) /\
    forall r,
      (_iteration zeros prepare_batch library (__init__ cfg c) (Some batchdata) s).1 = Returns r ->
      events_of new
      = [ GENERATOR_FORWARD_COMPLETED;
          GENERATOR_DISCRIMINATOR_FORWARD_COMPLETED;
          RECONSTRUCTION_LOSS_COMPLETED;
          GENERATOR_LOSS_COMPLETED;
          GENERATOR_BACKWARD_COMPLETED;
          GENERATOR_MODEL_COMPLETED;
          DISCRIMINATOR_REALS_FORWARD_COMPLETED;
          DISCRIMINATOR_FAKES_FORWARD_COMPLETED;
          DISCRIMINATOR_LOSS_COMPLETED ]
        ++ (if s_amp cfg then [ DISCRIMINATOR_BACKWARD_COMPLETED ] else []).
Proof.
  destruct (emits_iteration (__init__ cfg c) (Some batchdata) s)
    as (new & Htrace & Hprefix & Hall).
  exists new. unfold iteration_events_of, scaler_in_use in *.
  rewrite init_d_scaler_in_use in *.
  by destruct (s_amp cfg).
Qed.

(** C5: on a batch for which the collaborators do not raise, the iteration
    returns a record; and in any iteration that returns, the only addition
    made is that of the entries RECONSTRUCTION_LOSS and GENERATOR_LOSS of
    the record returned.  Without mixed precision its result is the tensor
    the generator phase backpropagates, and the record has no entry LOSS;
    with mixed precision its result is stored under LOSS, and what is
    backpropagated is what the generator scaler makes of it. *)
Theorem iteration_generator_loss e batchdata s :
  (never_raises library -> prepares_batches prepare_batch ->
   exists out s', _iteration zeros prepare_batch library e (Some batchdata) s = (Returns (Some out), s')) /\
  (forall out s',
     _iteration zeros prepare_batch library e (Some batchdata) s = (Returns (Some out), s') ->
     exists new recon_loss gen_loss loss,
       trace s' = trace s ++ new /\
       out !! RECONSTRUCTION_LOSS = Some recon_loss /\
       out !! GENERATOR_LOSS = Some gen_loss /\
       additions_of new = [ (recon_loss, gen_loss, loss) ] /\
       match (if amp e then g_scaler e else None) with
       | None =>
           out !! LOSS = None /\ head (backwards_of new) = Some loss
       | Some scaler =>
           out !! LOSS = Some loss /\
           exists loss_scaled,
             head (scalings_of new) = Some (scaler, loss, loss_scaled) /\
             head (backwards_of new) = Some loss_scaled
       end).
Proof.
  split.
  - intros Hlib Hprep.
    destruct (iteration_returns e batchdata s Hlib Hprep) as (v & s' & Hrun & _).
    eauto.
  - intros out s' (v & [= ->] & _ & Htrace)%iteration_Returns.
    exists (script e batchdata v), (recon_mean (v_g v)), (gen_mean (v_g v)),
      (v_loss v).
    split; [done|]. unfold_output.
    unfold script, generator_script, discriminator_script.
    destruct (if amp e then g_scaler e else None) as [scaler|];
      destruct (if amp e then d_scaler e else None);
      lookup_output; (do 4 (split; [done|])).
    3,4: done.
    all: by exists (v_loss_scaled v).
Qed.

(** C10: an iteration that returns zeroes gradients twice: through the
    generator optimiser in the generator phase and then through the
    discriminator network, not its optimiser, in the discriminator phase.
    The second zeroing leaves the gradient of every parameter that the
    discriminator optimiser manages and that is not a parameter of the
    discriminator network as it was. *)
Theorem iteration_zeroing e batchdata s r s' :
  _iteration zeros prepare_batch library e (Some batchdata) s = (Returns r, s') ->
  exists new,
    trace s' = trace s ++ new /\
    zeroings_of new
    = [ OPTIMIZER_ZERO_GRAD (g_optimizer e) (optim_set_to_none e);
        MODULE_ZERO_GRAD (d_network e) (optim_set_to_none e) ] /\
    forall (h : @Heap Obj _ _ World Tensor) p,
      p ∈ concat (param_groups (d_optimizer e)) ->
      p ∉ parameters (d_network e) ->
      grads (exec_statement zeros library
               (MODULE_ZERO_GRAD (d_network e) (optim_set_to_none e)) h).2 !! p
      = grads h !! p.
Proof.
  intros (v & _ & _ & Htrace)%iteration_Returns.
  eexists. split; [done|]. split.
  - unfold script, generator_script, discriminator_script.
    by destruct (if amp e then g_scaler e else None);
      destruct (if amp e then d_scaler e else None).
  - intros h p _ Hp. by apply zero_grads_other.
Qed.

(** ** The iteration: the data flow of a run that returns *)

Ltac unfold_script :=
  unfold script, generator_script, discriminator_script,
    generator_loss_script, discriminator_loss_script.

(** X1: The forward passes of an iteration that returns are four, in this
    order: the generator on the inputs, with the generator's inferer; then,
    with the discriminator's inferer, the discriminator on the fakes made
    [float] and [contiguous], on the inputs made [contiguous] and detached,
    and on the fakes made [contiguous] and detached.  All four get the
    extra arguments of the batch (none for a batch of two components).
    The record returned holds the inputs under IMAGE, the result of the
    first pass under FAKES, of the third under REAL_LOGITS and of the
    fourth under FAKE_LOGITS. *)
Theorem iteration_inferences e batchdata s out s' :
  _iteration zeros prepare_batch library e (Some batchdata) s
  = (Returns (Some out), s') ->
  exists new inputs targets extra g x,
    trace s' = trace s ++ new /\
    head new
    = Some (Prepared batchdata (device e) (non_blocking e) (to_kwargs e)
              (Returns (batch_of inputs targets extra))) /\
    conversions_of new
    = [ (FLOAT (fakes g), fakes_float g);
        (CONTIGUOUS (fakes_float g), fakes_contiguous g);
        (CONTIGUOUS inputs, reals_contiguous x);
        (DETACH (reals_contiguous x), reals_detached x);
        (CONTIGUOUS (fakes g), d_fakes_contiguous x);
        (DETACH (d_fakes_contiguous x), d_fakes_detached x) ] /\
    inferences_of new
    = [ (g_inferer e, inputs, g_network e, extra, fakes g);
        (d_inferer e, fakes_contiguous g, d_network e, extra, g_fake_logits g);
        (d_inferer e, reals_detached x, d_network e, extra, real_logits x);
        (d_inferer e, d_fakes_detached x, d_network e, extra, d_fake_logits x) ] /\
    out !! IMAGE = Some inputs /\
    out !! FAKES = Some (fakes g) /\
    out !! REAL_LOGITS = Some (real_logits x) /\
    out !! FAKE_LOGITS = Some (d_fake_logits x).
Proof.
  intros (v & [= ->] & _ & Htrace)%iteration_Returns.
  exists (script e batchdata v), (v_inputs v), (v_targets v), (v_extra v),
    (v_g v), (v_d v).
  split; [done|]. unfold_output. unfold_script.
  by destruct (if amp e then g_scaler e else None),
    (if amp e then d_scaler e else None); lookup_output.
Qed.

(** X2: The loss functions of an iteration that returns are called three
    times: the reconstruction loss on the entries FAKES and LABEL of the
    record returned, the generator loss on the logits of the second forward
    pass (those of the generator phase, which the record no longer holds),
    and the discriminator loss on the entries REAL_LOGITS and FAKE_LOGITS.
    Each result is reduced by [mean], nothing else is, and the three means
    are the entries RECONSTRUCTION_LOSS, GENERATOR_LOSS and
    DISCRIMINATOR_LOSS. *)
Theorem iteration_losses e batchdata s out s' :
  _iteration zeros prepare_batch library e (Some batchdata) s
  = (Returns (Some out), s') ->
  exists new the_fakes the_targets logits the_real_logits the_fake_logits
         recon_loss gen_loss dis_loss recon_mean gen_mean dis_mean,
    trace s' = trace s ++ new /\
    out !! FAKES = Some the_fakes /\
    out !! LABEL = Some the_targets /\
    out !! REAL_LOGITS = Some the_real_logits /\
    out !! FAKE_LOGITS = Some the_fake_logits /\
    snd <$> inferences_of new !! 1 = Some logits /\
    loss_calls_of new
    = [ (recon_loss_function e, [the_fakes; the_targets], recon_loss);
        (g_loss_function e, [logits], gen_loss);
        (d_loss_function e, [the_real_logits; the_fake_logits], dis_loss) ] /\
    means_of new
    = [ (recon_loss, recon_mean); (gen_loss, gen_mean); (dis_loss, dis_mean) ] /\
    out !! RECONSTRUCTION_LOSS = Some recon_mean /\
    out !! GENERATOR_LOSS = Some gen_mean /\
    out !! DISCRIMINATOR_LOSS = Some dis_mean.
Proof.
  intros (v & [= ->] & _ & Htrace)%iteration_Returns.
  exists (script e batchdata v), (fakes (v_g v)), (v_targets v),
    (g_fake_logits (v_g v)), (real_logits (v_d v)), (d_fake_logits (v_d v)),
    (recon (v_g v)), (gen (v_g v)), (d_loss (v_d v)),
    (recon_mean (v_g v)), (gen_mean (v_g v)), (d_loss_mean (v_d v)).
  split; [done|]. unfold_output. unfold_script.
  by destruct (if amp e then g_scaler e else None),
    (if amp e then d_scaler e else None); lookup_output.
Qed.

(** X3: The statements of an iteration that returns which change a network or
    an optimiser are, in this order: for the generator [train], the zeroing
    of gradients, one [backward] and one step; then the same for the
    discriminator.  A phase that uses a scaler backpropagates the loss the
    scaler has scaled and steps through the scaler, which is then updated;
    a phase that uses none backpropagates the loss itself and steps the
    optimiser directly.  The loss of the discriminator phase is the entry
    DISCRIMINATOR_LOSS, that of the generator phase the one sum made. *)
Theorem iteration_updates e batchdata s out s' :
  _iteration zeros prepare_batch library e (Some batchdata) s
  = (Returns (Some out), s') ->
  exists new recon_mean gen_mean loss loss_scaled dis_mean dis_scaled,
    trace s' = trace s ++ new /\
    additions_of new = [ (recon_mean, gen_mean, loss) ] /\
    out !! DISCRIMINATOR_LOSS = Some dis_mean /\
    scalings_of new
    = match (if amp e then g_scaler e else None) with
      | Some scaler => [ (scaler, loss, loss_scaled) ]
      | None => []
      end
      ++ match (if amp e then d_scaler e else None) with
         | Some scaler => [ (scaler, dis_mean, dis_scaled) ]
         | None => []
         end /\
    updates_of new
    = [ TRAIN (g_network e);
        OPTIMIZER_ZERO_GRAD (g_optimizer e) (optim_set_to_none e) ]
      ++ match (if amp e then g_scaler e else None) with
         | Some scaler =>
             [ BACKWARD loss_scaled; SCALER_STEP scaler (g_optimizer e);
               SCALER_UPDATE scaler ]
         | None => [ BACKWARD loss; STEP (g_optimizer e) ]
         end
      ++ [ TRAIN (d_network e);
           MODULE_ZERO_GRAD (d_network e) (optim_set_to_none e) ]
      ++ match (if amp e then d_scaler e else None) with
         | Some scaler =>
             [ BACKWARD dis_scaled; SCALER_STEP scaler (d_optimizer e);
               SCALER_UPDATE scaler ]
         | None => [ BACKWARD dis_mean; STEP (d_optimizer e) ]
         end.
Proof.
  intros (v & [= ->] & _ & Htrace)%iteration_Returns.
  exists (script e batchdata v), (recon_mean (v_g v)), (gen_mean (v_g v)),
    (v_loss v), (v_loss_scaled v), (d_loss_mean (v_d v)), (v_d_loss_scaled v).
  split; [done|]. unfold_output. unfold_script.
  by destruct (if amp e then g_scaler e else None),
    (if amp e then d_scaler e else None); lookup_output.
Qed.

(** X4: In an iteration that returns, the forward passes and the calls of the
    loss functions of a phase that uses a scaler are made inside one
    autocast scope, and its [backward] after the scope is left; a phase
    that uses no scaler opens no scope. *)
Theorem iteration_scopes e batchdata s r s' :
  _iteration zeros prepare_batch library e (Some batchdata) s = (Returns r, s') ->
  exists new,
    trace s' = trace s ++ new /\
    marks_of new
    = match (if amp e then g_scaler e else None) with
      | Some _ =>
          [ ENTER; FORWARD (g_network e); FORWARD (d_network e);
            LOSS_OF (recon_loss_function e); LOSS_OF (g_loss_function e);
            EXIT; BACKWARDS ]
      | None =>
          [ FORWARD (g_network e); FORWARD (d_network e);
            LOSS_OF (recon_loss_function e); LOSS_OF (g_loss_function e);
            BACKWARDS ]
      end
      ++ match (if amp e then d_scaler e else None) with
         | Some _ =>
             [ ENTER; FORWARD (d_network e); FORWARD (d_network e);
               LOSS_OF (d_loss_function e); EXIT; BACKWARDS ]
         | None =>
             [ FORWARD (d_network e); FORWARD (d_network e);
               LOSS_OF (d_loss_function e); BACKWARDS ]
         end.
Proof.
  intros (v & _ & _ & Htrace)%iteration_Returns.
  exists (script e batchdata v). split; [done|]. unfold_script.
  by destruct (if amp e then g_scaler e else None),
    (if amp e then d_scaler e else None).
Qed.

(** ** The iteration: what every run does, and what none does *)

Section Adds.

Variable e : AdversarialTrainer Obj.

(** [P] is a property of the entries a piece of the iteration adds to
    the trace that survives sequencing, holds of any single permitted
    call that neither opens nor leaves an autocast scope, and holds of a
    scope opened and left around entries of which it holds. *)
Variable P : list (Action Obj) -> Prop.
Hypothesis P_nil : P [].
Hypothesis P_app : forall l1 l2, P l1 -> P l2 -> P (l1 ++ l2).
Hypothesis P_call :
  forall a, permitted e a -> entering a = None -> leaving a = None -> P [a].
Hypothesis P_scope :
  forall l r,
    is_Some (if amp e then g_scaler e else None)
    \/ is_Some (if amp e then d_scaler e else None) ->
    P l ->
    P (did (AUTOCAST_ENTER (amp_kwargs e)) :: l ++ [Did AUTOCAST_EXIT r]).

Lemma adds_bind {A B} (m : M A) (f : A -> M B) :
  adds P m -> (forall a, adds P (f a)) -> adds P (bind m f).
Proof using P_app.
  intros Hm Hf s. unfold bind.
  destruct (Hm s) as (new1 & Htr1 & HP1).
  destruct (m s) as [[a|x] s1]; cbn [fst snd] in *; [|by eauto].
  destruct (Hf a s1) as (new2 & Htr2 & HP2).
  exists (new1 ++ new2). rewrite Htr2, Htr1, (assoc_L (++)). auto.
Qed.

Lemma adds_quiet {A} (m : M A) :
  (forall s, trace (m s).2 = trace s) -> adds P m.
Proof using P_nil. intros Hm s. exists []. by rewrite Hm, app_nil_r. Qed.

Lemma adds_load k : adds P (load k : M Obj).
Proof using P_nil.
  apply adds_quiet. intros s. unfold load.
  destruct (output s) as [d|]; [|done]. by destruct (d !! k).
Qed.

Lemma adds_store k v : adds P (store k v : M unit).
Proof using P_nil.
  apply adds_quiet. intros s. unfold store. by destruct (output s).
Qed.

Lemma adds_unpack batch : adds P (unpack batch : M _).
Proof using P_nil.
  apply adds_quiet. intros s. unfold unpack, ret, raise.
  by destruct batch as [|a [|b [|c [|d [|? ?]]]]].
Qed.

Lemma adds_ask op :
  issues e op -> adds P (ask op).
Proof using P_call.
  intros Hop s. eexists [_]. split; [done|]. by apply P_call.
Qed.

Lemma adds_perform op :
  issues e op ->
  (forall r, entering (Did op r) = None) ->
  (forall r, leaving (Did op r) = None) ->
  adds P (perform op).
Proof using P_call.
  intros Hop Henter Hleave s. eexists [_]. split; [done|]. by apply P_call.
Qed.

Lemma adds_fire_event ev :
  (ev = DISCRIMINATOR_BACKWARD_COMPLETED ->
   is_Some (if amp e then d_scaler e else None)) ->
  adds P (fire_event ev).
Proof using P_call. intros Hev. by apply adds_perform. Qed.

Lemma adds_with_autocast {A} (body : M A) :
  is_Some (if amp e then g_scaler e else None)
  \/ is_Some (if amp e then d_scaler e else None) ->
  adds P body -> adds P (with_autocast zeros library (amp_kwargs e) body).
Proof using P_call P_scope.
  intros Hamp Hbody s. unfold with_autocast.
  assert (exists r h,
    perform (AUTOCAST_ENTER (amp_kwargs e)) s
    = (r, {| output := output s;
             trace := trace s ++ [Did (AUTOCAST_ENTER (amp_kwargs e)) r];
             heap := h |})) as (r1 & h1 & ->) by (by eexists _, _).
  destruct r1 as [[]|x]; cbn [fst snd trace].
  - destruct (Hbody {| output := output s;
                       trace := trace s ++ [did (AUTOCAST_ENTER (amp_kwargs e))];
                       heap := h1 |}) as (new & Htr & HP).
    destruct (body _) as [r s2]; cbn [fst snd trace] in *.
    assert (exists r3 h3,
      perform AUTOCAST_EXIT s2
      = (r3, {| output := output s2;
                trace := trace s2 ++ [Did AUTOCAST_EXIT r3];
                heap := h3 |})) as (r3 & h3 & ->) by (by eexists _, _).
    exists (did (AUTOCAST_ENTER (amp_kwargs e)) :: new ++ [Did AUTOCAST_EXIT r3]).
    split; [|by apply P_scope].
    destruct r3 as [[]|y]; cbn [fst snd trace];
      by rewrite Htr, <- !(assoc_L (++)).
  - eexists [_]. split; [done|]. by apply P_call.
Qed.

(** One statement of a program, for the entries it adds. *)
Ltac addition :=
  first
    [ apply adds_load
    | apply adds_store
    | apply adds_ask; simpl; by auto
    | apply adds_fire_event; by auto
    | apply adds_perform; [simpl; by auto | done | done]
    | apply adds_bind; [ | intros ? ] ].

Lemma adds_compute_generator_loss inputs targets extra :
  adds P (_compute_generator_loss zeros library e inputs targets extra).
Proof using P_nil P_app P_call.
  unfold _compute_generator_loss. repeat addition.
Qed.

Lemma adds_compute_discriminator_loss extra :
  adds P (_compute_discriminator_loss zeros library e extra).
Proof using P_nil P_app P_call.
  unfold _compute_discriminator_loss. repeat addition.
Qed.

Lemma adds_train_generator inputs targets extra :
  adds P (train_generator zeros library e inputs targets extra).
Proof using P_nil P_app P_call P_scope.
  unfold train_generator, scaler_in_use.
  assert ((exists scaler, (if amp e then g_scaler e else None) = Some scaler)
          \/ (if amp e then g_scaler e else None) = None) as [[scaler Hg]|Hg]
    by (destruct (if amp e then g_scaler e else None); eauto);
    rewrite Hg.
  - repeat first
      [ apply adds_with_autocast;
          [left; rewrite Hg; by eauto | apply adds_compute_generator_loss]
      | addition ].
  - repeat first [ apply adds_compute_generator_loss | addition ].
Qed.

Lemma adds_train_discriminator extra :
  adds P (train_discriminator zeros library e extra).
Proof using P_nil P_app P_call P_scope.
  unfold train_discriminator, scaler_in_use.
  assert ((exists scaler, (if amp e then d_scaler e else None) = Some scaler)
          \/ (if amp e then d_scaler e else None) = None) as [[scaler Hd]|Hd]
    by (destruct (if amp e then d_scaler e else None); eauto);
    rewrite Hd.
  - repeat first
      [ apply adds_with_autocast;
          [right; rewrite Hd; by eauto | apply adds_compute_discriminator_loss]
      | addition ].
  - repeat first [ apply adds_compute_discriminator_loss | addition ].
Qed.

Lemma adds_iteration batchdata : adds P (iteration e batchdata).
Proof using P_nil P_app P_call P_scope.
  unfold _iteration.
  destruct batchdata as [batchdata|]; [|by apply adds_quiet].
  apply adds_bind.
  { intros s. eexists [_]. split; [done|]. by apply P_call. }
  intros batch. apply adds_bind; [apply adds_unpack|].
  intros [[inputs targets] extra].
  apply adds_bind; [by apply adds_quiet|]. intros [].
  apply adds_bind; [apply adds_train_generator|]. intros [].
  apply adds_bind; [apply adds_train_discriminator|]. intros [].
  by apply adds_quiet.
Qed.

End Adds.

Lemma permitted_sequences e :
  (forall l1 l2 : list (Action Obj),
     Forall (permitted e) l1 -> Forall (permitted e) l2 ->
     Forall (permitted e) (l1 ++ l2)) /\
  (forall a : Action Obj,
     permitted e a -> entering a = None -> leaving a = None ->
     Forall (permitted e) [a]) /\
  (forall (l : list (Action Obj)) r,
     is_Some (if amp e then g_scaler e else None)
     \/ is_Some (if amp e then d_scaler e else None) ->
     Forall (permitted e) l ->
     Forall (permitted e)
       (did (AUTOCAST_ENTER (amp_kwargs e)) :: l ++ [Did AUTOCAST_EXIT r])).
Proof.
  split; [|split].
  - intros l1 l2 H1 H2. by apply Forall_app.
  - intros a Ha _ _. by apply Forall_singleton.
  - intros l r Hamp Hl. apply Forall_cons. split; [done|].
    apply Forall_app. split; [done|]. by apply Forall_singleton.
Qed.

Lemma iteration_adds_permitted e batchdata :
  adds (Forall (permitted e))
    (_iteration zeros prepare_batch library e batchdata).
Proof.
  destruct (permitted_sequences e) as (Happ & Hcall & Hscope).
  by apply (adds_iteration e (Forall (permitted e))).
Qed.

Lemma issues_precision_mode (cfg : Settings Obj) (c : Created Obj) op :
  issues (__init__ cfg c) op ->
  if s_amp cfg then direct_step op = false else mixed_precision op = false.
Proof.
  unfold issues. rewrite init_g_scaler_in_use, init_d_scaler_in_use.
  destruct (s_amp cfg), op; simpl; try done; intros Hop;
    repeat match goal with
           | H : _ \/ _ |- _ => destruct H
           | H : _ /\ _ |- _ => destruct H
           | H : is_Some None |- _ => by apply is_Some_None in H
           end; done.
Qed.

(** X6: The precision mode of a trainer built by the constructor decides, in
    every run of an iteration, returning or raising: with mixed precision
    no optimiser is ever stepped directly, without it no scaler is ever
    called and no autocast scope ever opened. *)
Theorem iteration_precision_mode (cfg : Settings Obj) (c : Created Obj)
    batchdata s :
  exists new,
    trace (_iteration zeros prepare_batch library (__init__ cfg c) batchdata s).2
    = trace s ++ new /\
    if s_amp cfg
    then Forall (fun op => direct_step op = false) (omap operation new)
    else Forall (fun op => mixed_precision op = false) (omap operation new).
Proof.
  destruct (iteration_adds_permitted (__init__ cfg c) batchdata s)
    as (new & Htrace & Hnew).
  exists new. split; [done|]. clear Htrace.
  assert (Forall (fun op => if s_amp cfg then direct_step op = false
                            else mixed_precision op = false)
            (omap operation new)) as Hmode.
  { induction Hnew as [|a new Ha _ IH]; [done|].
    destruct a as [? ? ? ? ?|op r|op r]; [done|..];
      cbn [omap list_omap operation]; apply Forall_cons;
      (split; [by apply (issues_precision_mode cfg c)|done]). }
  by destruct (s_amp cfg).
Qed.

Lemma balanced_sequences e :
  balanced (@nil (Action Obj)) /\
  (forall l1 l2 : list (Action Obj),
     balanced l1 -> balanced l2 -> balanced (l1 ++ l2)) /\
  (forall a : Action Obj,
     permitted e a -> entering a = None -> leaving a = None -> balanced [a]) /\
  (forall (l : list (Action Obj)) r,
     is_Some (if amp e then g_scaler e else None)
     \/ is_Some (if amp e then d_scaler e else None) ->
     balanced l ->
     balanced (did (AUTOCAST_ENTER (amp_kwargs e)) :: l ++ [Did AUTOCAST_EXIT r])).
Proof.
  unfold balanced. split; [done|]. split; [|split].
  - intros l1 l2 H1 H2. rewrite !omap_app, !length_app. lia.
  - intros a _ Henter Hleave. simpl. by rewrite Henter, Hleave.
  - intros l r _ Hl. cbn [omap list_omap entering leaving did].
    rewrite !omap_app, !length_app, ?app_nil_r. simpl. rewrite ?app_nil_r. lia.
Qed.

(** X7: Whatever the outcome of an iteration, every autocast scope it has
    entered it has left: also when a call inside the scope raises. *)
Theorem iteration_leaves_scopes e batchdata s :
  exists new,
    trace (_iteration zeros prepare_batch library e batchdata s).2
    = trace s ++ new /\
    balanced new.
Proof.
  destruct (balanced_sequences e) as (Hnil & Happ & Hcall & Hscope).
  by apply (adds_iteration e balanced).
Qed.

(** ** The iteration: exceptions *)













Lemma unpack_outcome (batch : list Obj) s :
  (unpack batch s).2 = s /\
  ((exists inputs targets extra,
      batch = batch_of inputs targets extra /\
      (unpack batch s).1 = Returns (inputs, targets, extra)) \/
   (length batch <> 2 /\ length batch <> 4 /\
    (unpack batch s).1 = Raises (UnpackError 4 (length batch)))).
Proof.
  unfold unpack, ret, raise.
  destruct batch as [|a [|b [|c [|d [|? ?]]]]]; simpl; (split; [done|]);
    try (right; by repeat split).
  - left. by exists a, b, NoExtra.
  - left. by exists a, b, (WithExtra c d).
Qed.


(** ** The iteration: before and after the record is assigned *)

(** X9: When [prepare_batch] raises, the iteration raises the same exception;
    when it returns a batch that has neither two nor four components, the
    iteration raises the error of the unpacking into four.  In both cases
    [prepare_batch] is the only call made, and [engine.state.output] is
    left as it was: the record of the previous iteration stays. *)
Theorem iteration_stops_before_record e batchdata s :
  match (prepare_batch batchdata (device e) (non_blocking e) (to_kwargs e)
           (heap s)).1 with
  | Raises x =>
      _iteration zeros prepare_batch library e (Some batchdata) s
      = (Raises x,
         {| output := output s;
            trace := trace s ++ [Prepared batchdata (device e) (non_blocking e)
                                   (to_kwargs e) (Raises x)];
            heap := (prepare_batch batchdata (device e) (non_blocking e)
                       (to_kwargs e) (heap s)).2 |})
  | Returns batch =>
      length batch <> 2 -> length batch <> 4 ->
      _iteration zeros prepare_batch library e (Some batchdata) s
      = (Raises (UnpackError 4 (length batch)),
         {| output := output s;
            trace := trace s ++ [Prepared batchdata (device e) (non_blocking e)
                                   (to_kwargs e) (Returns batch)];
            heap := (prepare_batch batchdata (device e) (non_blocking e)
                       (to_kwargs e) (heap s)).2 |})
  end.
Proof.
  unfold _iteration, bind, prepare, log. cbn [fst snd].
  destruct (prepare_batch batchdata (device e) (non_blocking e) (to_kwargs e)
              (heap s)) as [[batch|x] h1]; cbn [fst snd]; [|done].
  intros Hlen2 Hlen4. unfold unpack, raise.
  by destruct batch as [|a [|b [|c [|d [|? ?]]]]].
Qed.

(** X10: An iteration does not read the record of the previous one: whatever
    [engine.state.output] holds when it starts, its outcome, the calls it
    makes and the heap it leaves are the same, and so is, when it returns,
    the whole state it leaves. *)
Theorem iteration_rebuilds_record e batchdata s previous :
  (_iteration zeros prepare_batch library e (Some batchdata)
     {| output := previous; trace := trace s; heap := heap s |}).1
  = (_iteration zeros prepare_batch library e (Some batchdata) s).1 /\
  trace (_iteration zeros prepare_batch library e (Some batchdata)
           {| output := previous; trace := trace s; heap := heap s |}).2
  = trace (_iteration zeros prepare_batch library e (Some batchdata) s).2 /\
  heap (_iteration zeros prepare_batch library e (Some batchdata)
          {| output := previous; trace := trace s; heap := heap s |}).2
  = heap (_iteration zeros prepare_batch library e (Some batchdata) s).2 /\
  match (_iteration zeros prepare_batch library e (Some batchdata) s).1 with
  | Returns _ =>
      (_iteration zeros prepare_batch library e (Some batchdata)
         {| output := previous; trace := trace s; heap := heap s |}).2
      = (_iteration zeros prepare_batch library e (Some batchdata) s).2
  | Raises _ => True
  end.
Proof.
  unfold _iteration, bind, prepare, log. cbn [fst snd output trace heap].
  destruct (prepare_batch batchdata (device e) (non_blocking e) (to_kwargs e)
              (heap s)) as [[batch|x] h1]; cbn [fst snd]; [|done].
  unfold unpack, ret, raise, assign_output.
  destruct batch as [|a [|b [|c [|d [|? ?]]]]]; cbn [decide_rel]; simpl;
    try done.
  - by destruct (train_generator _ _ _ _ _ _ _) as [[[]|?] ?];
      [destruct (train_discriminator _ _ _ _ _) as [[[]|?] ?]|].
  - by destruct (train_generator _ _ _ _ _ _ _) as [[[]|?] ?];
      [destruct (train_discriminator _ _ _ _ _) as [[[]|?] ?]|].
Qed.

(** ** The iteration: the aliases, in every state it leaves *)

Lemma ends_bind {A B} d (m : M A) (f : A -> M B) Q1 Q :
  ends d m Q1 ->
  (forall a d1, Q1 (Returns a) d1 -> ends d1 (f a) Q) ->
  (forall x d1, Q1 (Raises x) d1 -> Q (Raises x) d1) ->
  ends d (bind m f) Q.
Proof.
  intros Hm Hf Hx tr h. unfold bind.
  destruct (Hm tr h) as (d1 & Hout1 & HQ1).
  destruct (m _) as [[a|x] [o1 tr1 h1]]; cbn [fst snd output] in *; subst o1.
  - apply (Hf a d1 HQ1).
  - exists d1. auto.
Qed.

Lemma ends_weaken {A} d (m : M A) (Q Q' : Outcome Obj A -> gmap Key Obj -> Prop) :
  ends d m Q -> (forall r d', Q r d' -> Q' r d') -> ends d m Q'.
Proof.
  intros Hm HQ tr h. destruct (Hm tr h) as (d' & Hout & Hres). eauto.
Qed.

Lemma ends_ask d op : ends d (ask op) (fun _ d' => d' = d).
Proof. intros tr h. by exists d. Qed.

Lemma ends_perform d op : ends d (perform op) (fun _ d' => d' = d).
Proof. intros tr h. by exists d. Qed.

Lemma ends_store d k v :
  ends d (store k v : M unit) (fun r d' => r = Returns tt /\ d' = <[k := v]> d).
Proof. intros tr h. by exists (<[k := v]> d). Qed.

Lemma ends_load d k v :
  d !! k = Some v ->
  ends d (load k : M Obj) (fun r d' => r = Returns v /\ d' = d).
Proof.
  intros Hk tr h. exists d. unfold load. cbn [output]. by rewrite Hk.
Qed.

Lemma ends_with_autocast {A} d kwargs (body : M A) Q :
  ends d body Q ->
  (forall x, Q (Raises x) d) ->
  (forall r d' y, Q r d' -> Q (Raises y) d') ->
  ends d (with_autocast zeros library kwargs body) Q.
Proof.
  intros Hbody Henter Hexit tr h. unfold with_autocast.
  assert (exists r h1,
    perform (AUTOCAST_ENTER kwargs) {| output := Some d; trace := tr; heap := h |}
    = (r, {| output := Some d;
             trace := tr ++ [Did (AUTOCAST_ENTER kwargs) r];
             heap := h1 |})) as (r1 & h1 & ->) by (by eexists _, _).
  destruct r1 as [[]|x]; cbn [fst snd output]; [|by exists d].
  destruct (Hbody (tr ++ [did (AUTOCAST_ENTER kwargs)]) h1) as (d' & Hout & HQ).
  destruct (body _) as [r [o2 tr2 h2]]; cbn [fst snd output] in *. subst o2.
  assert (exists r3 h3,
    perform AUTOCAST_EXIT {| output := Some d'; trace := tr2; heap := h2 |}
    = (r3, {| output := Some d'; trace := tr2 ++ [Did AUTOCAST_EXIT r3];
              heap := h3 |})) as (r3 & h3 & ->) by (by eexists _, _).
  exists d'. destruct r3 as [[]|y]; cbn [fst snd output]; eauto.
Qed.

Ltac kept_record :=
  unfold kept; lookup_output; by repeat split.

(** One statement of a program, for the record it leaves: [tac] proves
    what is asked of the record when the statement raises. *)
Ltac ending tac :=
  eapply ends_bind;
    [ first [ apply ends_ask
            | apply ends_perform
            | apply ends_store
            | eapply ends_load; by lookup_output ]
    | first [ intros ? ? [[= ->] ->] | intros [] ? [_ ->] | intros ? ? -> ]
    | first [ by intros ? ? [? _] | intros ? ? ->; tac ] ].

Lemma ends_compute_generator_loss e inputs targets extra d :
  d !! PRED = d !! FAKES ->
  ends d (_compute_generator_loss zeros library e inputs targets extra)
    (fun r d' =>
       kept d d' /\
       match r with
       | Returns _ =>
           is_Some (d' !! FAKES) /\ is_Some (d' !! RECONSTRUCTION_LOSS)
           /\ is_Some (d' !! GENERATOR_LOSS)
       | Raises _ => True
       end).
Proof.
  intros Hd. unfold _compute_generator_loss, fire_event.
  repeat ending ltac:(split; [kept_record | done]).
  eapply ends_weaken; [apply ends_perform|]. intros r ? ->.
  split; [kept_record|]. destruct r; [|done].
  lookup_output. eauto.
Qed.

Lemma ends_compute_discriminator_loss e extra d :
  d !! PRED = d !! FAKES ->
  is_Some (d !! REALS) ->
  is_Some (d !! FAKES) ->
  ends d (_compute_discriminator_loss zeros library e extra)
    (fun r d' =>
       kept d d' /\
       match r with
       | Returns _ => is_Some (d' !! DISCRIMINATOR_LOSS)
       | Raises _ => True
       end).
Proof.
  intros Hd [the_reals Hreals] [the_fakes Hfakes].
  unfold _compute_discriminator_loss, fire_event.
  repeat ending ltac:(split; [kept_record | done]).
  eapply ends_weaken; [apply ends_perform|]. intros r ? ->.
  split; [kept_record|]. destruct r; [|done].
  lookup_output. eauto.
Qed.

Lemma kept_trans (d d1 d2 : gmap Key Obj) :
  kept d d1 -> kept d1 d2 -> kept d d2.
Proof. unfold kept. intros (? & ? & ?) (? & ? & ?). repeat split; congruence. Qed.

Lemma ends_train_generator e inputs targets extra d :
  d !! PRED = d !! FAKES ->
  ends d (train_generator zeros library e inputs targets extra)
    (fun r d' =>
       kept d d' /\
       match r with
       | Returns _ => is_Some (d' !! FAKES)
       | Raises _ => True
       end).
Proof.
  intros Hd. unfold train_generator, fire_event.
  do 2 ending ltac:(split; [kept_record | done]).
  eapply ends_bind with
    (Q1 := fun r d' =>
             kept d d' /\
             match r with
             | Returns _ => is_Some (d' !! FAKES)
             | Raises _ => True
             end).
  - destruct (scaler_in_use (amp e) (g_scaler e)) as [scaler|].
    + eapply ends_bind.
      * apply ends_with_autocast;
          [by apply ends_compute_generator_loss
          | intros x; split; [kept_record | done]
          | by intros r d' y [Hkept _] ].
      * intros [] d1 [Hkept (Hfakes & [recon_mean Hrecon] & [gen_mean Hgen])].
        assert (d1 !! PRED = d1 !! FAKES) as Hd1 by apply Hkept.
        destruct Hfakes as [the_fakes Hfakes].
        repeat ending ltac:(split;
          [eapply kept_trans; [exact Hkept | kept_record] | done]).
        eapply ends_weaken; [apply ends_perform|]. intros r ? ->.
        split; [eapply kept_trans; [exact Hkept | kept_record]|].
        destruct r; [|done]. lookup_output. eauto.
      * by intros x d1 [Hkept _].
    + eapply ends_bind.
      * by apply ends_compute_generator_loss.
      * intros [] d1 [Hkept (Hfakes & [recon_mean Hrecon] & [gen_mean Hgen])].
        assert (d1 !! PRED = d1 !! FAKES) as Hd1 by apply Hkept.
        repeat ending ltac:(split; [exact Hkept | done]).
        eapply ends_weaken; [apply ends_perform|]. intros r ? ->.
        split; [exact Hkept|]. by destruct r.
      * by intros x d1 [Hkept _].
  - intros [] d1 [Hkept Hfakes].
    eapply ends_weaken; [apply ends_perform|]. intros r ? ->.
    split; [done|]. by destruct r.
  - by intros x d1 [Hkept _].
Qed.

Lemma ends_train_discriminator e extra d :
  d !! PRED = d !! FAKES ->
  is_Some (d !! REALS) ->
  is_Some (d !! FAKES) ->
  ends d (train_discriminator zeros library e extra) (fun _ d' => kept d d').
Proof.
  intros Hd Hreals Hfakes. unfold train_discriminator, fire_event.
  do 2 ending kept_record.
  destruct (scaler_in_use (amp e) (d_scaler e)) as [scaler|].
  - eapply ends_bind.
    + apply ends_with_autocast;
        [by apply ends_compute_discriminator_loss
        | intros x; split; [kept_record | done]
        | by intros r d' y [Hkept _] ].
    + intros [] d1 [Hkept [dis_mean Hdis]].
      repeat ending ltac:(exact Hkept).
      eapply ends_weaken; [apply ends_perform|]. by intros r ? ->.
    + by intros x d1 [Hkept _].
  - eapply ends_bind.
    + by apply ends_compute_discriminator_loss.
    + intros [] d1 [Hkept [dis_mean Hdis]].
      repeat ending ltac:(exact Hkept).
      eapply ends_weaken; [apply ends_perform|]. by intros r ? ->.
    + by intros x d1 [Hkept _].
Qed.

(** X11: The aliases are an invariant of the trainer: if the record in
    [engine.state.output], when there is one, holds the same object under
    PRED and FAKES (or holds neither) and the same object under REALS and
    IMAGE, then so does the record an iteration leaves there, whether the
    iteration returns or raises, and wherever it raises. *)
Theorem iteration_keeps_aliases e batchdata s :
  aliasing (output s) ->
  aliasing (output (_iteration zeros prepare_batch library e batchdata s).2).
Proof.
  intros Hs. destruct batchdata as [batchdata|]; [|done].
  unfold _iteration, bind, prepare, log. cbn [fst snd].
  destruct (prepare_batch batchdata (device e) (non_blocking e) (to_kwargs e)
              (heap s)) as [[batch|x] h1]; cbn [fst snd]; [|done].
  match goal with
  | |- context [unpack batch ?s1] =>
      destruct (unpack_outcome batch s1) as [Hstate Hun];
      destruct (unpack batch s1) as [r s2]
  end.
  cbn [fst snd] in Hstate, Hun. subst s2.
  destruct Hun as [(inputs & targets & extra & -> & ->)|(_ & _ & ->)];
    [|done].
  unfold assign_output. cbn [output trace heap].
  assert (ends (initial_output inputs targets)
            (bind (train_generator zeros library e inputs targets extra)
               (fun _ => bind (train_discriminator zeros library e extra)
                           (fun _ s0 => (Returns (output s0), s0))))
            (fun _ d' => kept (initial_output inputs targets) d')) as Hend.
  { eapply ends_bind.
    - by apply ends_train_generator.
    - intros [] d1 [Hkept Hfakes]. eapply ends_bind.
      + apply ends_train_discriminator; [apply Hkept | | done].
        destruct Hkept as (_ & -> & _). unfold initial_output.
        lookup_output. eauto.
      + intros [] d2 Hkept2 tr h. exists d2.
        split; [done|]. by eapply kept_trans.
      + intros x d2 Hkept2. by eapply kept_trans.
    - by intros x d1 [Hkept _]. }
  destruct (Hend
    (trace s ++ [Prepared batchdata (device e) (non_blocking e) (to_kwargs e)
                   (Returns (batch_of inputs targets extra))]) h1)
    as (d' & Hout & Hkept).
  unfold bind, initial_output in Hout. rewrite Hout.
  intros ? [= <-]. destruct Hkept as (Hpred & Hreals & Himage).
  split; [done|]. rewrite Hreals, Himage. unfold initial_output.
  by lookup_output.
Qed.

(** ** The iteration: the calls of each phase *)

Section Phases.

Variable e : AdversarialTrainer Obj.
Variable ph : Phase.

Lemma phase_bind {A B} (m : M A) (f : A -> M B) :
  adds (Forall (permitted_in ph e)) m ->
  (forall a, adds (Forall (permitted_in ph e)) (f a)) ->
  adds (Forall (permitted_in ph e)) (bind m f).
Proof. apply adds_bind. intros l1 l2 H1 H2. by apply Forall_app. Qed.

Lemma phase_load k : adds (Forall (permitted_in ph e)) (load k : M Obj).
Proof. by apply adds_load. Qed.

Lemma phase_store k v :
  adds (Forall (permitted_in ph e)) (store k v : M unit).
Proof. by apply adds_store. Qed.

Lemma phase_ask op :
  issues_in ph e op -> adds (Forall (permitted_in ph e)) (ask op).
Proof.
  intros Hop s. eexists [_]. split; [done|]. by apply Forall_singleton.
Qed.

Lemma phase_perform op :
  issues_in ph e op -> adds (Forall (permitted_in ph e)) (perform op).
Proof.
  intros Hop s. eexists [_]. split; [done|]. by apply Forall_singleton.
Qed.

Lemma phase_fire_event ev :
  issues_in ph e (FIRE_EVENT ev) ->
  adds (Forall (permitted_in ph e)) (fire_event ev).
Proof. apply phase_perform. Qed.

Lemma phase_with_autocast {A} (body : M A) :
  is_Some (phase_scaler e ph) ->
  issues_in ph e (AUTOCAST_ENTER (amp_kwargs e)) ->
  issues_in ph e AUTOCAST_EXIT ->
  adds (Forall (permitted_in ph e)) body ->
  adds (Forall (permitted_in ph e))
    (with_autocast zeros library (amp_kwargs e) body).
Proof.
  intros Hamp Henter Hexit Hbody s. unfold with_autocast.
  assert (exists r h,
    perform (AUTOCAST_ENTER (amp_kwargs e)) s
    = (r, {| output := output s;
             trace := trace s ++ [Did (AUTOCAST_ENTER (amp_kwargs e)) r];
             heap := h |})) as (r1 & h1 & ->) by (by eexists _, _).
  destruct r1 as [[]|x]; cbn [fst snd trace].
  - destruct (Hbody {| output := output s;
                       trace := trace s ++ [did (AUTOCAST_ENTER (amp_kwargs e))];
                       heap := h1 |}) as (new & Htr & HP).
    destruct (body _) as [r s2]; cbn [fst snd trace] in *.
    assert (exists r3 h3,
      perform AUTOCAST_EXIT s2
      = (r3, {| output := output s2;
                trace := trace s2 ++ [Did AUTOCAST_EXIT r3];
                heap := h3 |})) as (r3 & h3 & ->) by (by eexists _, _).
    exists (did (AUTOCAST_ENTER (amp_kwargs e)) :: new ++ [Did AUTOCAST_EXIT r3]).
    split.
    + destruct r3 as [[]|y]; cbn [fst snd trace];
        by rewrite Htr, <- !(assoc_L (++)).
    + apply Forall_cons. split; [done|].
      apply Forall_app. split; [done|]. by apply Forall_singleton.
  - eexists [_]. split; [done|]. by apply Forall_singleton.
Qed.

(** A phase that starts with a statement: the entries it adds start with
    that statement. *)
Lemma phase_head {A} op (f : unit -> M A) :
  issues_in ph e op ->
  (forall u, adds (Forall (permitted_in ph e)) (f u)) ->
  forall s, exists r rest,
    trace (bind (perform op) f s).2 = trace s ++ Did op r :: rest /\
    Forall (permitted_in ph e) (Did op r :: rest).
Proof.
  intros Hop Hf s. unfold bind.
  assert (exists r h,
    perform op s
    = (r, {| output := output s; trace := trace s ++ [Did op r];
             heap := h |})) as (r & h & ->) by (by eexists _, _).
  destruct r as [u|x]; cbn [fst snd trace].
  - destruct (Hf u {| output := output s; trace := trace s ++ [Did op (Returns u)];
                      heap := h |}) as (rest & Htr & HP).
    cbn [trace] in Htr. exists (Returns u), rest. split.
    + by rewrite Htr, <- (assoc_L (++)).
    + by apply Forall_cons.
  - exists (Raises x), []. split; [done|]. by apply Forall_singleton.
Qed.

End Phases.

(** One statement of a phase, for the entries it adds. *)
Ltac phase_step :=
  first
    [ apply phase_load
    | apply phase_store
    | apply phase_ask; simpl; by auto
    | apply phase_fire_event; simpl; by auto
    | apply phase_perform; simpl; by auto
    | apply phase_bind; [ | intros ? ] ].

Lemma phase_compute_generator_loss e inputs targets extra :
  adds (Forall (permitted_in GENERATOR_PHASE e))
    (_compute_generator_loss zeros library e inputs targets extra).
Proof. unfold _compute_generator_loss. repeat phase_step. Qed.

Lemma phase_compute_discriminator_loss e extra :
  adds (Forall (permitted_in DISCRIMINATOR_PHASE e))
    (_compute_discriminator_loss zeros library e extra).
Proof. unfold _compute_discriminator_loss. repeat phase_step. Qed.

Lemma phase_train_generator e inputs targets extra s :
  exists r rest,
    trace (train_generator zeros library e inputs targets extra s).2
    = trace s ++ Did (TRAIN (g_network e)) r :: rest /\
    Forall (permitted_in GENERATOR_PHASE e) (Did (TRAIN (g_network e)) r :: rest).
Proof.
  unfold train_generator. apply phase_head; [done|]. intros _.
  unfold scaler_in_use.
  assert ((exists scaler, phase_scaler e GENERATOR_PHASE = Some scaler)
          \/ phase_scaler e GENERATOR_PHASE = None) as [[scaler Hg]|Hg]
    by (destruct (phase_scaler e GENERATOR_PHASE); eauto);
    unfold phase_scaler in Hg; rewrite Hg.
  - repeat first
      [ apply phase_with_autocast;
          [ unfold phase_scaler; rewrite Hg; by eauto
          | simpl; unfold phase_scaler; rewrite Hg; by eauto
          | simpl; unfold phase_scaler; rewrite Hg; by eauto
          | apply phase_compute_generator_loss ]
      | apply phase_ask; simpl; unfold phase_scaler; rewrite ?Hg; by auto
      | apply phase_perform; simpl; unfold phase_scaler; rewrite ?Hg; by auto
      | phase_step ].
  - repeat first
      [ apply phase_compute_generator_loss
      | apply phase_perform; simpl; unfold phase_scaler; rewrite ?Hg; by auto
      | phase_step ].
Qed.

Lemma phase_train_discriminator e extra s :
  exists r rest,
    trace (train_discriminator zeros library e extra s).2
    = trace s ++ Did (TRAIN (d_network e)) r :: rest /\
    Forall (permitted_in DISCRIMINATOR_PHASE e)
      (Did (TRAIN (d_network e)) r :: rest).
Proof.
  unfold train_discriminator. apply phase_head; [done|]. intros _.
  unfold scaler_in_use.
  assert ((exists scaler, phase_scaler e DISCRIMINATOR_PHASE = Some scaler)
          \/ phase_scaler e DISCRIMINATOR_PHASE = None) as [[scaler Hd]|Hd]
    by (destruct (phase_scaler e DISCRIMINATOR_PHASE); eauto);
    unfold phase_scaler in Hd; rewrite Hd.
  - repeat first
      [ apply phase_with_autocast;
          [ unfold phase_scaler; rewrite Hd; by eauto
          | simpl; unfold phase_scaler; rewrite Hd; by eauto
          | simpl; unfold phase_scaler; rewrite Hd; by eauto
          | apply phase_compute_discriminator_loss ]
      | apply phase_ask; simpl; unfold phase_scaler; rewrite ?Hd; by auto
      | apply phase_fire_event; simpl; unfold phase_scaler; rewrite ?Hd; by eauto
      | apply phase_perform; simpl; unfold phase_scaler; rewrite ?Hd; by auto
      | phase_step ].
  - repeat first
      [ apply phase_compute_discriminator_loss
      | apply phase_perform; simpl; unfold phase_scaler; rewrite ?Hd; by auto
      | phase_step ].
Qed.

(** A phase that uses no scaler may make no call of mixed precision (no
    autocast scope, no call on a scaler), whatever the other phase uses;
    a phase that uses its scaler may not step an optimiser directly. *)
Lemma phase_without_scaler e ph op :
  phase_scaler e ph = None -> issues_in ph e op -> mixed_precision op = false.
Proof.
  intros Hnone. destruct ph, op; simpl; rewrite ?Hnone; try done;
    intros Hop; repeat match goal with
                       | H : _ /\ _ |- _ => destruct H
                       | H : is_Some None |- _ => by apply is_Some_None in H
                       end; done.
Qed.

Lemma phase_with_scaler e ph op :
  is_Some (phase_scaler e ph) -> issues_in ph e op -> direct_step op = false.
Proof.
  intros [scaler Hsome]. destruct ph, op; simpl; rewrite ?Hsome; try done;
    by intros [? _].
Qed.

(** X5: Whatever its outcome, an iteration only adds entries to the trace,
    in three parts: the call of [prepare_batch] (with the trainer's device
    and flags; no entry at all without batch data), the calls of the
    generator phase, which start with [train] on the generator, and the
    calls of the discriminator phase, which start with [train] on the
    discriminator.  Every call of a phase is one that phase may make:
    on its own network, optimiser, inferer and loss functions, with the
    scaler of the phase and an autocast scope only if that phase uses its
    scaler, the direct step of its optimiser only if it uses none, and the
    event DISCRIMINATOR_BACKWARD_COMPLETED only in a discriminator phase
    that uses its scaler. *)
Theorem iteration_permitted e batchdata s :
  exists prepared generator discriminator,
    trace (_iteration zeros prepare_batch library e batchdata s).2
    = trace s ++ prepared ++ generator ++ discriminator /\
    (prepared = [] /\ generator = [] /\ discriminator = [] \/
     exists data r,
       batchdata = Some data /\
       prepared = [Prepared data (device e) (non_blocking e) (to_kwargs e) r]) /\
    (generator = [] /\ discriminator = [] \/
     exists r, head generator = Some (Did (TRAIN (g_network e)) r)) /\
    (discriminator = [] \/
     exists r, head discriminator = Some (Did (TRAIN (d_network e)) r)) /\
    Forall (permitted_in GENERATOR_PHASE e) generator /\
    Forall (permitted_in DISCRIMINATOR_PHASE e) discriminator.
Proof.
  destruct batchdata as [batchdata|].
  2: { exists [], [], []. simpl. rewrite app_nil_r.
       split; [done|]. split; [by left|]. split; [by left|].
       split; [by left|]. by split. }
  unfold _iteration, bind, prepare, log. cbn [fst snd].
  destruct (prepare_batch batchdata (device e) (non_blocking e) (to_kwargs e)
              (heap s)) as [[batch|x] h1]; cbn [fst snd].
  2: { eexists [_], [], []. simpl. split; [done|]. split; [right; by eauto|].
       split; [by left|]. split; [by left|]. by split. }
  match goal with
  | |- context [unpack batch ?s1] =>
      destruct (unpack_outcome batch s1) as [Hstate Hun];
      destruct (unpack batch s1) as [r s2]
  end.
  cbn [fst snd] in Hstate, Hun. subst s2.
  destruct Hun as [(inputs & targets & extra & -> & ->)|(_ & _ & ->)].
  2: { eexists [_], [], []. simpl. split; [done|]. split; [right; by eauto|].
       split; [by left|]. split; [by left|]. by split. }
  unfold assign_output. cbn [output trace heap].
  match goal with
  | |- context [train_generator zeros library e inputs targets extra ?s1] =>
      destruct (phase_train_generator e inputs targets extra s1)
        as (rg & gen & Hg & HPg);
      destruct (train_generator zeros library e inputs targets extra s1)
        as [[[]|x] s2]
  end; cbn [fst snd trace] in *.
  - destruct (phase_train_discriminator e extra s2) as (rd & dis & Hd & HPd).
    exists [Prepared batchdata (device e) (non_blocking e) (to_kwargs e)
              (Returns (batch_of inputs targets extra))],
      (Did (TRAIN (g_network e)) rg :: gen),
      (Did (TRAIN (d_network e)) rd :: dis).
    split.
    + destruct (train_discriminator zeros library e extra s2) as [[[]|x] s3];
        cbn [fst snd trace] in *;
        by rewrite Hd, Hg, <- !(assoc_L (++)).
    + split; [right; by eauto|]. split; [right; by eauto|].
      split; [right; by eauto|]. by split.
  - exists [Prepared batchdata (device e) (non_blocking e) (to_kwargs e)
              (Returns (batch_of inputs targets extra))],
      (Did (TRAIN (g_network e)) rg :: gen), [].
    split; [by rewrite Hg, app_nil_r, <- !(assoc_L (++))|].
    split; [right; by eauto|]. split; [right; by eauto|].
    split; [by left|]. by split.
Qed.

End IterationFacts.

(** * Properties of the state export *)

Section StateExportFacts.

Context {Obj StateDict : Type}.
Variable engine_state_dict : StateDict.
Variable state_dict : Obj -> StateDict.
Variable loss_state_dict : Obj -> option StateDict.

Abbreviation get_state' := (get_state engine_state_dict state_dict loss_state_dict).
Abbreviation substate' := (substate engine_state_dict state_dict loss_state_dict).
Abbreviation blocks' := (blocks engine_state_dict state_dict loss_state_dict).

Implicit Types (self : AdversarialTrainer Obj) (inc : Includes)
  (st : @Export StateDict) (sw : Switch).

Lemma get_state_blocks self inc additional_states :
  get_state' self inc additional_states
  = match additional_states with
    | Some d => update d (blocks' self inc)
    | None => blocks' self inc
    end.
Proof.
  destruct self as [? ? ? ? ? ? ? ? ? ? ? ? ? ? [gs|] [ds|] ?];
    match goal with |- ?l = ?r => by change l with r end.
Qed.


(** *** One block *)

Lemma block_lookup flag k sub missing off st k' :
  (block flag k sub missing off st).1 !! k'
  = if decide (k = k') then
      match (if flag then sub else None) with
      | Some v => Some v
      | None => st.1 !! k'
      end
    else st.1 !! k'.
Proof.
  unfold block, set_item, warn.
  destruct flag, sub as [v|]; simpl; rewrite ?lookup_insert;
    repeat case_decide; done.
Qed.

Lemma block_warnings flag k sub missing off st :
  (block flag k sub missing off st).2
  = st.2 ++ block_warning flag sub missing off.
Proof.
  unfold block, block_warning, set_item, warn.
  destruct flag, sub; simpl; by rewrite ?app_nil_r.
Qed.

(** *** The nine blocks *)

Lemma blocks_switch self inc sw :
  (blocks' self inc).1 !! switch_key sw
  = if switch_on inc sw then substate' self sw else None.
Proof.
  unfold blocks. rewrite !block_lookup.
  destruct sw; simpl; repeat case_decide; try done;
    repeat case_match; done.
Qed.

Lemma blocks_other self inc k :
  (forall sw, switch_key sw ≠ k) -> (blocks' self inc).1 !! k = None.
Proof.
  intros Hk. unfold blocks. rewrite !block_lookup.
  pose proof (Hk INCLUDE_ENGINE). pose proof (Hk INCLUDE_GENERATOR).
  pose proof (Hk INCLUDE_GENERATOR_OPTIMISER).
  pose proof (Hk INCLUDE_GENERATOR_SCALER).
  pose proof (Hk INCLUDE_GENERATOR_LOSS). pose proof (Hk INCLUDE_DISCRIMINATOR).
  pose proof (Hk INCLUDE_DISCRIMINATOR_OPTIMISER).
  pose proof (Hk INCLUDE_DISCRIMINATOR_SCALER).
  pose proof (Hk INCLUDE_DISCRIMINATOR_LOSS).
  by rewrite !decide_False by done.
Qed.

Lemma get_state_lookup self inc additional_states k :
  (get_state' self inc additional_states).1 !! k
  = match additional_states ≫= (.!! k) with
    | Some v => Some v
    | None => (blocks' self inc).1 !! k
    end.
Proof.
  rewrite get_state_blocks. destruct additional_states as [d|]; [|done].
  unfold update; simpl. destruct (d !! k) as [v|] eqn:Hd.
  - by apply lookup_union_Some_l.
  - by apply lookup_union_r.
Qed.

Lemma get_state_warnings self inc additional_states :
  (get_state' self inc additional_states).2 = (blocks' self inc).2.
Proof. rewrite get_state_blocks. by destruct additional_states. Qed.


(** *** The switches *)

Lemma switches_complete sw : sw ∈ switches.
Proof. unfold switches. destruct sw; set_solver. Qed.

Lemma switch_keys_distinct : NoDup (switch_key <$> switches).
Proof. apply (bool_decide_unpack _). by vm_compute. Qed.

Lemma switch_on_includes_of (on : Switch -> bool) sw :
  switch_on (includes_of on) sw = on sw.
Proof. by destruct sw. Qed.

Lemma includes_of_switch_on inc : includes_of (switch_on inc) = inc.
Proof. by destruct inc. Qed.

(** C6, as the specification states it, fails: [get_state] has nine
    boolean parameters, so no ten distinct switches exist. *)
Lemma get_state_has_no_ten_switches :
  ~ exists names : list Switch, NoDup names /\ length names = 10.
Proof.
  intros (names & Hnodup & Hlen).
  assert (names ⊆+ switches) as Hsub
    by (apply NoDup_submseteq; [done | intros sw _; apply switches_complete]).
  apply submseteq_length in Hsub. rewrite Hlen in Hsub. simpl in Hsub. lia.
Qed.

(** C6, amended: [get_state] has nine boolean switches, with nine distinct
    keys; whatever values a call gives them, the snapshot (without
    additional states) has under the key of a switch the sub-state the
    switch governs when this switch is enabled and the sub-state exists,
    and nothing otherwise: the other eight switches have no part in it. *)
Theorem get_state_switches self (on : Switch -> bool) sw :
  length switches = 9 /\
  NoDup (switch_key <$> switches) /\
  sw ∈ switches /\
  (get_state engine_state_dict state_dict loss_state_dict
     self (includes_of on) None).1 !! switch_key sw
  = if on sw then substate engine_state_dict state_dict loss_state_dict
     self sw else None.
Proof.
  split; [done|]. split; [apply switch_keys_distinct|].
  split; [apply switches_complete|].
  rewrite get_state_lookup, blocks_switch. simpl.
  by rewrite switch_on_includes_of.
Qed.

(** C7: when the switch of a scaler is enabled and the trainer has no such
    scaler, [get_state] issues the warning that the scaler was required but
    not found, and puts nothing under the key of the scaler (the key is in
    the snapshot only if the caller's additional states have it).  And
    whatever the switches, every sub-state whose switch is enabled and
    which exists is in the snapshot returned, under its key, unless the
    additional states override it. *)
Theorem get_state_best_effort self inc additional_states :
  (include_generator_scaler inc = true -> g_scaler self = None ->
   "Generator AMP scaler was required in checkpoint but not found due to AMP being disabled."
     ∈ (get_state engine_state_dict state_dict loss_state_dict
     self inc additional_states).2 /\
   (get_state engine_state_dict state_dict loss_state_dict
     self inc additional_states).1 !! "generator_scaler"
   = additional_states ≫= (.!! "generator_scaler")) /\
  (include_discriminator_scaler inc = true -> d_scaler self = None ->
   "Discriminator AMP scaler was required in checkpoint but not found due to AMP being disabled."
     ∈ (get_state engine_state_dict state_dict loss_state_dict
     self inc additional_states).2 /\
   (get_state engine_state_dict state_dict loss_state_dict
     self inc additional_states).1 !! "discriminator_scaler"
   = additional_states ≫= (.!! "discriminator_scaler")) /\
  (forall sw v,
     switch_on inc sw = true -> substate engine_state_dict state_dict loss_state_dict
     self sw = Some v ->
     (get_state engine_state_dict state_dict loss_state_dict
     self inc additional_states).1 !! switch_key sw
     = Some (default v (additional_states ≫= (.!! switch_key sw)))).
Proof.
  split; [|split].
  - intros Hon Hnone. split.
    + rewrite get_state_warnings. unfold blocks. rewrite !block_warnings.
      cbn [substate]. rewrite Hon, Hnone. unfold block_warning at 4.
      simpl. set_solver.
    + pose proof (blocks_switch self inc INCLUDE_GENERATOR_SCALER) as Hb.
      cbn [switch_key switch_on substate] in Hb. rewrite Hon, Hnone in Hb.
      rewrite get_state_lookup, Hb. by destruct (additional_states ≫= _).
  - intros Hon Hnone. split.
    + rewrite get_state_warnings. unfold blocks. rewrite !block_warnings.
      cbn [substate]. rewrite Hon, Hnone. unfold block_warning at 8.
      simpl. set_solver.
    + pose proof (blocks_switch self inc INCLUDE_DISCRIMINATOR_SCALER) as Hb.
      cbn [switch_key switch_on substate] in Hb. rewrite Hon, Hnone in Hb.
      rewrite get_state_lookup, Hb. by destruct (additional_states ≫= _).
  - intros sw v Hon Hsub. rewrite get_state_lookup, blocks_switch, Hon, Hsub.
    by destruct (additional_states ≫= _).
Qed.

(** C8: every entry of the additional states is in the snapshot returned,
    with the value the caller gave it, also under a key that a switch
    produces. *)
Theorem get_state_additional self inc (additional_states : gmap string StateDict) k v :
  additional_states !! k = Some v ->
  (get_state engine_state_dict state_dict loss_state_dict
     self inc (Some additional_states)).1 !! k = Some v.
Proof. intros Hk. rewrite get_state_lookup. simpl. by rewrite Hk. Qed.

(** C9: the default values of the switches are disabled for the two
    scalers and enabled for the seven others; the snapshot of a call
    without arguments has the keys engine, generator, generator_optimizer,
    discriminator and discriminator_optimizer, the keys generator_loss and
    discriminator_loss when the loss function has a [state_dict] method,
    and no other key: never generator_scaler or discriminator_scaler. *)
Theorem get_state_default self :
  switch_on defaults <$> switches
  = [ true; true; true; false; true; true; true; false; true ] /\
  dom (get_state engine_state_dict state_dict loss_state_dict
     self defaults None).1
  = {[ "engine"; "generator"; "generator_optimizer"; "discriminator";
       "discriminator_optimizer" ]}
    ∪ (match loss_state_dict (g_loss_function self) with
       | Some _ => {[ "generator_loss" ]}
       | None => ∅
       end)
    ∪ (match loss_state_dict (d_loss_function self) with
       | Some _ => {[ "discriminator_loss" ]}
       | None => ∅
       end) /\
  (get_state engine_state_dict state_dict loss_state_dict
     self defaults None).1 !! "generator_scaler" = None /\
  (get_state engine_state_dict state_dict loss_state_dict
     self defaults None).1 !! "discriminator_scaler" = None.
Proof.
  split; [done|]. split; [|split].
  - rewrite get_state_blocks. unfold blocks, block, substate, defaults.
    cbn [include_engine include_generator include_generator_optimiser
         include_generator_scaler include_generator_loss
         include_discriminator include_discriminator_optimiser
         include_discriminator_scaler include_discriminator_loss].
    destruct (loss_state_dict (g_loss_function self)),
      (loss_state_dict (d_loss_function self));
      unfold set_item, warn; cbn [fst snd];
      rewrite !dom_insert_L, dom_empty_L; set_solver.
  - rewrite get_state_lookup.
    apply (blocks_switch self defaults INCLUDE_GENERATOR_SCALER).
  - rewrite get_state_lookup.
    apply (blocks_switch self defaults INCLUDE_DISCRIMINATOR_SCALER).
Qed.

(** ** The state export: every switch, every warning *)

Abbreviation switch_warning' :=
  (switch_warning engine_state_dict state_dict loss_state_dict).

Lemma warnings_of_switches self inc additional_states :
  (get_state' self inc additional_states).2
  = switches ≫= switch_warning' self inc.
Proof.
  rewrite get_state_warnings. unfold blocks. rewrite !block_warnings.
  cbn [fst snd app mbind list_bind switches].
  rewrite app_nil_r, <- !(assoc_L (++)).
  reflexivity.
Qed.

(** X12: The warnings of [get_state] are those of its nine switches, in the
    order of the switches: a disabled switch gives its advisory, an enabled
    switch whose sub-state does not exist (a scaler without mixed
    precision, a loss function without [state_dict]) gives the warning that
    it is missing, and an enabled switch whose sub-state exists gives none.
    The additional states change nothing to the warnings. *)
Theorem get_state_warnings_of_switches self inc additional_states :
  (get_state engine_state_dict state_dict loss_state_dict
     self inc additional_states).2
  = switches ≫= switch_warning engine_state_dict state_dict loss_state_dict
                  self inc.
Proof. apply warnings_of_switches. Qed.

Lemma block_count flag k (sub : option StateDict) missing off
    (st : Export) :
  st.1 !! k = None ->
  size (block flag k sub missing off st).1
  + length (block flag k sub missing off st).2
  = S (size st.1 + length st.2).
Proof.
  intros Hk. unfold block, set_item, warn.
  destruct flag, sub as [v|]; simpl;
    rewrite ?(map_size_insert_None _ _ _ Hk), ?length_app; simpl; lia.
Qed.

(** X13: Every switch of [get_state] has one outcome, an entry or a warning:
    in a call without additional states, the entries of the snapshot and
    the warnings issued are nine together, whatever the switches and
    whatever the trainer has. *)
Theorem get_state_entry_or_warning self inc :
  size (get_state engine_state_dict state_dict loss_state_dict
          self inc None).1
  + length (get_state engine_state_dict state_dict loss_state_dict
              self inc None).2
  = 9.
Proof.
  rewrite get_state_blocks. cbn [update]. unfold blocks.
  repeat (rewrite block_count;
          [| rewrite ?block_lookup; by rewrite ?decide_False by done]).
  done.
Qed.

(** X14: The snapshot of [get_state] has no key of its own making besides the
    nine keys of the switches: every key of the snapshot is the key of a
    switch or a key of the additional states. *)
Theorem get_state_keys self inc additional_states k :
  is_Some ((get_state engine_state_dict state_dict loss_state_dict
              self inc additional_states).1 !! k) ->
  k ∈ switch_key <$> switches \/
  exists d, additional_states = Some d /\ k ∈ dom d.
Proof.
  rewrite get_state_lookup. intros Hk.
  destruct (additional_states ≫= (.!! k)) as [v|] eqn:Hadd.
  - right. destruct additional_states as [d|]; [|done].
    exists d. split; [done|]. apply elem_of_dom. by exists v.
  - left. destruct (decide (k ∈ switch_key <$> switches)) as [|Hout]; [done|].
    rewrite blocks_other in Hk; [by destruct Hk|].
    intros sw <-. apply Hout, list_elem_of_fmap_2, switches_complete.
Qed.

(** X15: [get_state] is silent exactly when every switch is enabled and every
    sub-state exists (both scalers, and a [state_dict] on both loss
    functions); so a call that leaves the switches of the scalers at their
    default, disabled, always warns. *)
Theorem get_state_silent self inc additional_states :
  (get_state engine_state_dict state_dict loss_state_dict
     self inc additional_states).2 = []
  <-> forall sw, switch_on inc sw = true /\
        is_Some (substate engine_state_dict state_dict loss_state_dict
                   self sw).
Proof.
  rewrite warnings_of_switches. split.
  - intros Hnil sw.
    assert (switch_warning' self inc sw = []) as Hsw.
    { apply (f_equal length) in Hnil. apply length_zero_iff_nil.
      pose proof (switches_complete sw) as Hin.
      apply list_elem_of_split in Hin as (l1 & l2 & Hin).
      rewrite Hin, bind_app, bind_cons, !length_app in Hnil.
      simpl in Hnil. lia. }
    unfold switch_warning in Hsw.
    destruct (switch_on inc sw); [|done].
    by destruct (substate' self sw); [eauto|].
  - intros Hall. induction switches as [|sw l IH]; [done|].
    rewrite bind_cons, IH, app_nil_r. unfold switch_warning.
    destruct (Hall sw) as [-> [v ->]]. done.
Qed.

Lemma missing_warning_issued self inc additional_states sw :
  sw = INCLUDE_GENERATOR_SCALER \/ sw = INCLUDE_DISCRIMINATOR_SCALER ->
  missing_warning sw ∈ (get_state' self inc additional_states).2
  <-> switch_on inc sw = true /\ substate' self sw = None.
Proof.
  intros Hsw. rewrite warnings_of_switches, list_elem_of_bind.
  split.
  - intros (sw' & Hin & _). unfold switch_warning in Hin.
    destruct (switch_on inc sw') eqn:Hon;
      [destruct (substate' self sw') eqn:Hsub|];
      try (by apply elem_of_nil in Hin);
      apply list_elem_of_singleton in Hin;
      destruct Hsw as [-> | ->]; destruct sw'; try discriminate Hin; done.
  - intros [Hon Hsub]. exists sw. split; [|apply switches_complete].
    unfold switch_warning. rewrite Hon, Hsub. apply list_elem_of_here.
Qed.

(** X16: The constructor and [get_state] together: a trainer made by
    [__init__] has its two scalers exactly when mixed precision is
    enabled, so [get_state] warns that a scaler was required but not found
    exactly when the switch of this scaler is enabled and the trainer was
    constructed without mixed precision; and its snapshot (without
    additional states) has the state of the scaler the constructor created
    exactly when the switch is enabled and the trainer was constructed
    with mixed precision. *)
Theorem get_state_after_init cfg c inc additional_states :
  let self := __init__ cfg c in
  (missing_warning INCLUDE_GENERATOR_SCALER
     ∈ (get_state engine_state_dict state_dict loss_state_dict
          self inc additional_states).2
   <-> include_generator_scaler inc = true /\ s_amp cfg = false) /\
  (missing_warning INCLUDE_DISCRIMINATOR_SCALER
     ∈ (get_state engine_state_dict state_dict loss_state_dict
          self inc additional_states).2
   <-> include_discriminator_scaler inc = true /\ s_amp cfg = false) /\
  (get_state engine_state_dict state_dict loss_state_dict
     self inc None).1 !! "generator_scaler"
  = (if include_generator_scaler inc && s_amp cfg
     then Some (state_dict (new_g_scaler c)) else None) /\
  (get_state engine_state_dict state_dict loss_state_dict
     self inc None).1 !! "discriminator_scaler"
  = (if include_discriminator_scaler inc && s_amp cfg
     then Some (state_dict (new_d_scaler c)) else None).
Proof.
  intros self. split; [split|split; [split|split]].
  - intros Hin. apply missing_warning_issued in Hin as [Hon Hsub]; [|by left].
    split; [done|]. simpl in Hsub. by destruct (s_amp cfg).
  - intros [Hon Hamp]. apply missing_warning_issued; [by left|].
    split; [done|]. simpl. by rewrite Hamp.
  - intros Hin. apply missing_warning_issued in Hin as [Hon Hsub]; [|by right].
    split; [done|]. simpl in Hsub. by destruct (s_amp cfg).
  - intros [Hon Hamp]. apply missing_warning_issued; [by right|].
    split; [done|]. simpl. by rewrite Hamp.
  - rewrite get_state_lookup.
    change "generator_scaler" with (switch_key INCLUDE_GENERATOR_SCALER).
    rewrite blocks_switch. simpl.
    by destruct (include_generator_scaler inc), (s_amp cfg).
  - rewrite get_state_lookup.
    change "discriminator_scaler"
      with (switch_key INCLUDE_DISCRIMINATOR_SCALER).
    rewrite blocks_switch. simpl.
    by destruct (include_discriminator_scaler inc), (s_amp cfg).
Qed.

End StateExportFacts.

(** * The instance at work

    The theorems above, applied to the concrete instance. *)

Lemma toy_never_raises : never_raises Toy.library.
Proof. intros op h. by eexists. Qed.

Lemma toy_prepares_batches : prepares_batches Toy.prepare_batch.
Proof. intros batchdata device non_blocking to_kwargs h. eexists. by split; [|left]. Qed.

Lemma toy_iteration_without_amp :
  Toy.iteration false (Some 50)
  = (Returns (Some Toy.record_without_amp), Toy.final false).
Proof. by vm_compute. Qed.

Lemma toy_iteration_with_amp :
  Toy.iteration true (Some 50)
  = (Returns (Some Toy.record_with_amp), Toy.final true).
Proof. by vm_compute. Qed.

(** Without mixed precision the record has no entry LOSS, with mixed
    precision it has one. *)
Example toy_LOSS :
  Toy.record_without_amp !! LOSS = None /\ Toy.record_with_amp !! LOSS = Some 117.
Proof. by vm_compute. Qed.

(** The gradients after an iteration: those of parameters 10 (generator
    optimiser) and 20 (discriminator network) have been zeroed, that of
    parameter 23, which only the discriminator optimiser manages, has not. *)
Example toy_gradients :
  grads (heap (Toy.final false)) = <[23 := 5]> (<[20 := 0]> (<[10 := 0]> ∅)).
Proof. by vm_compute. Qed.

(** An iteration whose first [backward] raises: the exception reaches the
    caller, the four events fired so far and the record built so far stay. *)
Example toy_interrupted :
  (Toy.interrupted_iteration false).1 = Raises (Raised 99) /\
  events_of (trace (Toy.interrupted_iteration false).2)
  = [ GENERATOR_FORWARD_COMPLETED;
      GENERATOR_DISCRIMINATOR_FORWARD_COMPLETED;
      RECONSTRUCTION_LOSS_COMPLETED;
      GENERATOR_LOSS_COMPLETED ] /\
  dom <$> output (Toy.interrupted_iteration false).2
  = Some {[ IMAGE; LABEL; REALS; FAKES; PRED; FAKE_LOGITS;
            RECONSTRUCTION_LOSS; GENERATOR_LOSS ]}.
Proof. by vm_compute. Qed.

Lemma iteration_keys_witness :
  Toy.iteration false (Some 50)
  = (Returns (Some Toy.record_without_amp), Toy.final false) /\
  dom Toy.record_without_amp
  = {[ IMAGE; LABEL; REALS; FAKES; PRED; FAKE_LOGITS; RECONSTRUCTION_LOSS;
       GENERATOR_LOSS; REAL_LOGITS; DISCRIMINATOR_LOSS ]}
    ∪ (if s_amp (Toy.settings false) then {[ LOSS ]} else ∅) /\
  (LOSS ∈ dom Toy.record_without_amp <-> s_amp (Toy.settings false) = true).
Proof.
  assert (Toy.iteration false (Some 50)
          = (Returns (Some Toy.record_without_amp), Toy.final false)) as Hrun
    by (by vm_compute).
  split; [exact Hrun|].
  exact (iteration_keys Toy.zeros Toy.prepare_batch Toy.library
           (Toy.settings false) Toy.created 50 Toy.start _ _ Hrun).
Defined.

Lemma iteration_aliases_witness :
  never_raises Toy.library /\
  prepares_batches Toy.prepare_batch /\
  Toy.iteration false (Some 50)
  = (Returns (Some Toy.record_without_amp), Toy.final false) /\
  (exists out s', Toy.iteration false (Some 50) = (Returns (Some out), s')) /\
  exists v,
    trace (Toy.final false) = trace Toy.start ++ script (Toy.trainer false) 50 v /\
    Toy.record_without_amp !! PRED = Some (fakes (v_g v)) /\
    Toy.record_without_amp !! FAKES = Some (fakes (v_g v)) /\
    Toy.record_without_amp !! REALS = Some (v_inputs v) /\
    Toy.record_without_amp !! IMAGE = Some (v_inputs v).
Proof.
  assert (Toy.iteration false (Some 50)
          = (Returns (Some Toy.record_without_amp), Toy.final false)) as Hrun
    by (by vm_compute).
  destruct (iteration_aliases Toy.zeros Toy.prepare_batch Toy.library
              (Toy.trainer false) 50 Toy.start) as [Hreturns Haliases].
  split; [exact toy_never_raises|]. split; [exact toy_prepares_batches|].
  split; [exact Hrun|].
  split; [exact (Hreturns toy_never_raises toy_prepares_batches)|].
  exact (Haliases _ _ Hrun).
Defined.

Lemma iteration_events_witness :
  (Toy.iteration true (Some 50)).1 = Returns (Some Toy.record_with_amp) /\
  exists new,
    trace (Toy.final true) = trace Toy.start ++ new /\
    events_of new
    = [ GENERATOR_FORWARD_COMPLETED;
        GENERATOR_DISCRIMINATOR_FORWARD_COMPLETED;
        RECONSTRUCTION_LOSS_COMPLETED;
        GENERATOR_LOSS_COMPLETED;
        GENERATOR_BACKWARD_COMPLETED;
        GENERATOR_MODEL_COMPLETED;
        DISCRIMINATOR_REALS_FORWARD_COMPLETED;
        DISCRIMINATOR_FAKES_FORWARD_COMPLETED;
        DISCRIMINATOR_LOSS_COMPLETED;
        DISCRIMINATOR_BACKWARD_COMPLETED ].
Proof.
  assert ((Toy.iteration true (Some 50)).1 = Returns (Some Toy.record_with_amp))
    as Hrun by (by vm_compute).
  split; [exact Hrun|].
  destruct (iteration_events Toy.zeros Toy.prepare_batch Toy.library
              (Toy.settings true) Toy.created 50 Toy.start)
    as (new & Htrace & _ & Hall).
  exists new. split; [exact Htrace|]. exact (Hall _ Hrun).
Defined.

Lemma iteration_generator_loss_witness :
  never_raises Toy.library /\
  prepares_batches Toy.prepare_batch /\
  Toy.iteration false (Some 50)
  = (Returns (Some Toy.record_without_amp), Toy.final false) /\
  (exists out s', Toy.iteration false (Some 50) = (Returns (Some out), s')) /\
  exists new recon_loss gen_loss loss,
    trace (Toy.final false) = trace Toy.start ++ new /\
    Toy.record_without_amp !! RECONSTRUCTION_LOSS = Some recon_loss /\
    Toy.record_without_amp !! GENERATOR_LOSS = Some gen_loss /\
    additions_of new = [ (recon_loss, gen_loss, loss) ] /\
    Toy.record_without_amp !! LOSS = None /\
    head (backwards_of new) = Some loss.
Proof.
  assert (Toy.iteration false (Some 50)
          = (Returns (Some Toy.record_without_amp), Toy.final false)) as Hrun
    by (by vm_compute).
  destruct (iteration_generator_loss Toy.zeros Toy.prepare_batch Toy.library
              (Toy.trainer false) 50 Toy.start) as [Hreturns Hloss].
  split; [exact toy_never_raises|]. split; [exact toy_prepares_batches|].
  split; [exact Hrun|].
  split; [exact (Hreturns toy_never_raises toy_prepares_batches)|].
  exact (Hloss _ _ Hrun).
Defined.

Lemma iteration_zeroing_witness :
  Toy.iteration false (Some 50)
  = (Returns (Some Toy.record_without_amp), Toy.final false) /\
  (23 ∈ concat (param_groups (d_optimizer (Toy.trainer false)))) /\
  (23 ∉ parameters (d_network (Toy.trainer false))) /\
  exists new,
    trace (Toy.final false) = trace Toy.start ++ new /\
    zeroings_of new
    = [ OPTIMIZER_ZERO_GRAD (g_optimizer (Toy.trainer false)) false;
        MODULE_ZERO_GRAD (d_network (Toy.trainer false)) false ] /\
    grads (exec_statement Toy.zeros Toy.library
             (MODULE_ZERO_GRAD (d_network (Toy.trainer false)) false)
             (heap Toy.start)).2 !! 23
    = grads (heap Toy.start) !! 23.
Proof.
  assert (Toy.iteration false (Some 50)
          = (Returns (Some Toy.record_without_amp), Toy.final false)) as Hrun
    by (by vm_compute).
  assert (23 ∈ concat (param_groups (d_optimizer (Toy.trainer false)))) as Hin
    by (apply (bool_decide_unpack _); by vm_compute).
  assert (23 ∉ parameters (d_network (Toy.trainer false))) as Hout
    by (apply (bool_decide_unpack _); by vm_compute).
  split; [exact Hrun|]. split; [exact Hin|]. split; [exact Hout|].
  destruct (iteration_zeroing Toy.zeros Toy.prepare_batch Toy.library
              (Toy.trainer false) 50 Toy.start _ _ Hrun)
    as (new & Htrace & Hzero & Hframe).
  exists new. split; [exact Htrace|]. split; [exact Hzero|].
  exact (Hframe (heap Toy.start) 23 Hin Hout).
Defined.

Lemma get_state_best_effort_witness :
  include_generator_scaler Toy.all_on = true /\
  g_scaler (Toy.trainer false) = None /\
  include_discriminator_scaler Toy.all_on = true /\
  d_scaler (Toy.trainer false) = None /\
  switch_on Toy.all_on INCLUDE_GENERATOR_LOSS = true /\
  substate Toy.engine_state_dict Toy.state_dict Toy.loss_state_dict
    (Toy.trainer false) INCLUDE_GENERATOR_LOSS = Some 1006 /\
  ("Generator AMP scaler was required in checkpoint but not found due to AMP being disabled."
     ∈ (Toy.export false Toy.all_on None).2 /\
   (Toy.export false Toy.all_on None).1 !! "generator_scaler" = None) /\
  ("Discriminator AMP scaler was required in checkpoint but not found due to AMP being disabled."
     ∈ (Toy.export false Toy.all_on None).2 /\
   (Toy.export false Toy.all_on None).1 !! "discriminator_scaler" = None) /\
  (Toy.export false Toy.all_on None).1 !! "generator_loss" = Some 1006.
Proof.
  destruct (get_state_best_effort Toy.engine_state_dict Toy.state_dict
              Toy.loss_state_dict (Toy.trainer false) Toy.all_on None)
    as (Hg & Hd & Hall).
  repeat (split; [reflexivity|]).
  split; [exact (Hg eq_refl eq_refl)|].
  split; [exact (Hd eq_refl eq_refl)|].
  exact (Hall INCLUDE_GENERATOR_LOSS 1006 eq_refl eq_refl).
Defined.

Lemma get_state_additional_witness :
  Toy.additional !! "engine" = Some 7 /\
  (Toy.export false defaults None).1 !! "engine" = Some 1000 /\
  (Toy.export false defaults (Some Toy.additional)).1 !! "engine" = Some 7.
Proof.
  assert (Toy.additional !! "engine" = Some 7) as Hk by (by vm_compute).
  split; [exact Hk|]. split; [by vm_compute|].
  exact (get_state_additional Toy.engine_state_dict Toy.state_dict
           Toy.loss_state_dict (Toy.trainer false) defaults _ _ _ Hk).
Defined.

(** ** The further theorems at work *)

Lemma iteration_inferences_witness :
  _iteration Toy.zeros Toy.prepare_batch Toy.library (Toy.trainer true) (Some 50) Toy.start
  = (Returns (Some Toy.record_with_amp), (Toy.final true)) /\
  exists new inputs targets extra g x,
    trace (Toy.final true) = trace Toy.start ++ new /\
    head new
    = Some (Prepared 50 (device (Toy.trainer true)) (non_blocking (Toy.trainer true)) (to_kwargs (Toy.trainer true))
              (Returns (batch_of inputs targets extra))) /\
    conversions_of new
    = [ (FLOAT (fakes g), fakes_float g);
        (CONTIGUOUS (fakes_float g), fakes_contiguous g);
        (CONTIGUOUS inputs, reals_contiguous x);
        (DETACH (reals_contiguous x), reals_detached x);
        (CONTIGUOUS (fakes g), d_fakes_contiguous x);
        (DETACH (d_fakes_contiguous x), d_fakes_detached x) ] /\
    inferences_of new
    = [ (g_inferer (Toy.trainer true), inputs, g_network (Toy.trainer true), extra, fakes g);
        (d_inferer (Toy.trainer true), fakes_contiguous g, d_network (Toy.trainer true), extra, g_fake_logits g);
        (d_inferer (Toy.trainer true), reals_detached x, d_network (Toy.trainer true), extra, real_logits x);
        (d_inferer (Toy.trainer true), d_fakes_detached x, d_network (Toy.trainer true), extra, d_fake_logits x) ] /\
    Toy.record_with_amp !! IMAGE = Some inputs /\
    Toy.record_with_amp !! FAKES = Some (fakes g) /\
    Toy.record_with_amp !! REAL_LOGITS = Some (real_logits x) /\
    Toy.record_with_amp !! FAKE_LOGITS = Some (d_fake_logits x).
Proof.
  assert (_iteration Toy.zeros Toy.prepare_batch Toy.library
            (Toy.trainer true) (Some 50) Toy.start
          = (Returns (Some Toy.record_with_amp), Toy.final true)) as Hrun
    by (by vm_compute).
  split; [exact Hrun|].
  exact (iteration_inferences Toy.zeros Toy.prepare_batch Toy.library
           (Toy.trainer true) 50 Toy.start Toy.record_with_amp (Toy.final true) Hrun).
Defined.

Lemma iteration_losses_witness :
  _iteration Toy.zeros Toy.prepare_batch Toy.library (Toy.trainer false) (Some 50) Toy.start
  = (Returns (Some Toy.record_without_amp), (Toy.final false)) /\
  exists new the_fakes the_targets logits the_real_logits the_fake_logits
         recon_loss gen_loss dis_loss recon_mean gen_mean dis_mean,
    trace (Toy.final false) = trace Toy.start ++ new /\
    Toy.record_without_amp !! FAKES = Some the_fakes /\
    Toy.record_without_amp !! LABEL = Some the_targets /\
    Toy.record_without_amp !! REAL_LOGITS = Some the_real_logits /\
    Toy.record_without_amp !! FAKE_LOGITS = Some the_fake_logits /\
    snd <$> inferences_of new !! 1 = Some logits /\
    loss_calls_of new
    = [ (recon_loss_function (Toy.trainer false), [the_fakes; the_targets], recon_loss);
        (g_loss_function (Toy.trainer false), [logits], gen_loss);
        (d_loss_function (Toy.trainer false), [the_real_logits; the_fake_logits], dis_loss) ] /\
    means_of new
    = [ (recon_loss, recon_mean); (gen_loss, gen_mean); (dis_loss, dis_mean) ] /\
    Toy.record_without_amp !! RECONSTRUCTION_LOSS = Some recon_mean /\
    Toy.record_without_amp !! GENERATOR_LOSS = Some gen_mean /\
    Toy.record_without_amp !! DISCRIMINATOR_LOSS = Some dis_mean.
Proof.
  assert (_iteration Toy.zeros Toy.prepare_batch Toy.library
            (Toy.trainer false) (Some 50) Toy.start
          = (Returns (Some Toy.record_without_amp), Toy.final false)) as Hrun
    by (by vm_compute).
  split; [exact Hrun|].
  exact (iteration_losses Toy.zeros Toy.prepare_batch Toy.library
           (Toy.trainer false) 50 Toy.start Toy.record_without_amp (Toy.final false) Hrun).
Defined.

Lemma iteration_updates_witness :
  _iteration Toy.zeros Toy.prepare_batch Toy.library (Toy.trainer true) (Some 50) Toy.start
  = (Returns (Some Toy.record_with_amp), (Toy.final true)) /\
  exists new recon_mean gen_mean loss loss_scaled dis_mean dis_scaled,
    trace (Toy.final true) = trace Toy.start ++ new /\
    additions_of new = [ (recon_mean, gen_mean, loss) ] /\
    Toy.record_with_amp !! DISCRIMINATOR_LOSS = Some dis_mean /\
    scalings_of new
    = match (if amp (Toy.trainer true) then g_scaler (Toy.trainer true) else None) with
      | Some scaler => [ (scaler, loss, loss_scaled) ]
      | None => []
      end
      ++ match (if amp (Toy.trainer true) then d_scaler (Toy.trainer true) else None) with
         | Some scaler => [ (scaler, dis_mean, dis_scaled) ]
         | None => []
         end /\
    updates_of new
    = [ TRAIN (g_network (Toy.trainer true));
        OPTIMIZER_ZERO_GRAD (g_optimizer (Toy.trainer true)) (optim_set_to_none (Toy.trainer true)) ]
      ++ match (if amp (Toy.trainer true) then g_scaler (Toy.trainer true) else None) with
         | Some scaler =>
             [ BACKWARD loss_scaled; SCALER_STEP scaler (g_optimizer (Toy.trainer true));
               SCALER_UPDATE scaler ]
         | None => [ BACKWARD loss; STEP (g_optimizer (Toy.trainer true)) ]
         end
      ++ [ TRAIN (d_network (Toy.trainer true));
           MODULE_ZERO_GRAD (d_network (Toy.trainer true)) (optim_set_to_none (Toy.trainer true)) ]
      ++ match (if amp (Toy.trainer true) then d_scaler (Toy.trainer true) else None) with
         | Some scaler =>
             [ BACKWARD dis_scaled; SCALER_STEP scaler (d_optimizer (Toy.trainer true));
               SCALER_UPDATE scaler ]
         | None => [ BACKWARD dis_mean; STEP (d_optimizer (Toy.trainer true)) ]
         end.
Proof.
  assert (_iteration Toy.zeros Toy.prepare_batch Toy.library
            (Toy.trainer true) (Some 50) Toy.start
          = (Returns (Some Toy.record_with_amp), Toy.final true)) as Hrun
    by (by vm_compute).
  split; [exact Hrun|].
  exact (iteration_updates Toy.zeros Toy.prepare_batch Toy.library
           (Toy.trainer true) 50 Toy.start Toy.record_with_amp (Toy.final true) Hrun).
Defined.

Lemma iteration_scopes_witness :
  _iteration Toy.zeros Toy.prepare_batch Toy.library (Toy.trainer true) (Some 50) Toy.start = (Returns (Some Toy.record_with_amp), (Toy.final true)) /\
  exists new,
    trace (Toy.final true) = trace Toy.start ++ new /\
    marks_of new
    = match (if amp (Toy.trainer true) then g_scaler (Toy.trainer true) else None) with
      | Some _ =>
          [ ENTER; FORWARD (g_network (Toy.trainer true)); FORWARD (d_network (Toy.trainer true));
            LOSS_OF (recon_loss_function (Toy.trainer true)); LOSS_OF (g_loss_function (Toy.trainer true));
            EXIT; BACKWARDS ]
      | None =>
          [ FORWARD (g_network (Toy.trainer true)); FORWARD (d_network (Toy.trainer true));
            LOSS_OF (recon_loss_function (Toy.trainer true)); LOSS_OF (g_loss_function (Toy.trainer true));
            BACKWARDS ]
      end
      ++ match (if amp (Toy.trainer true) then d_scaler (Toy.trainer true) else None) with
         | Some _ =>
             [ ENTER; FORWARD (d_network (Toy.trainer true)); FORWARD (d_network (Toy.trainer true));
               LOSS_OF (d_loss_function (Toy.trainer true)); EXIT; BACKWARDS ]
         | None =>
             [ FORWARD (d_network (Toy.trainer true)); FORWARD (d_network (Toy.trainer true));
               LOSS_OF (d_loss_function (Toy.trainer true)); BACKWARDS ]
         end.
Proof.
  assert (_iteration Toy.zeros Toy.prepare_batch Toy.library
            (Toy.trainer true) (Some 50) Toy.start
          = (Returns (Some Toy.record_with_amp), Toy.final true)) as Hrun
    by (by vm_compute).
  split; [exact Hrun|].
  exact (iteration_scopes Toy.zeros Toy.prepare_batch Toy.library
           (Toy.trainer true) 50 Toy.start (Some Toy.record_with_amp) (Toy.final true) Hrun).
Defined.

Lemma iteration_stops_before_record_witness :
  (Toy.prepare_three_components 50 (device (Toy.trainer false))
     (non_blocking (Toy.trainer false)) (to_kwargs (Toy.trainer false))
     (heap Toy.start)).1 = Returns [100; 101; 102] /\
  length [100; 101; 102] <> 2 /\
  length [100; 101; 102] <> 4 /\
  _iteration Toy.zeros Toy.prepare_three_components Toy.library
    (Toy.trainer false) (Some 50) Toy.start
  = (Raises (UnpackError 4 3),
     {| output := output Toy.start;
        trace := trace Toy.start
                 ++ [Prepared 50 (device (Toy.trainer false))
                       (non_blocking (Toy.trainer false))
                       (to_kwargs (Toy.trainer false))
                       (Returns [100; 101; 102])];
        heap := (Toy.prepare_three_components 50 (device (Toy.trainer false))
                   (non_blocking (Toy.trainer false))
                   (to_kwargs (Toy.trainer false)) (heap Toy.start)).2 |}).
Proof.
  assert (length [100; 101; 102] <> 2) as H2 by (simpl; lia).
  assert (length [100; 101; 102] <> 4) as H4 by (simpl; lia).
  split; [reflexivity|]. split; [exact H2|]. split; [exact H4|].
  exact (iteration_stops_before_record Toy.zeros Toy.prepare_three_components
           Toy.library (Toy.trainer false) 50 Toy.start H2 H4).
Defined.

Lemma iteration_keeps_aliases_witness :
  aliasing (output (Toy.final false)) /\
  aliasing (output (_iteration Toy.zeros Toy.prepare_batch
                      Toy.library_without_backward (Toy.trainer false)
                      (Some 50) (Toy.final false)).2).
Proof.
  assert (aliasing (output (Toy.final false))) as Hs.
  { assert (output (Toy.final false) = Some Toy.record_without_amp) as Hout
      by (by vm_compute).
    intros d Hd. rewrite Hout in Hd. injection Hd as <-. clear Hout.
    vm_compute. split; reflexivity. }
  split; [exact Hs|].
  exact (iteration_keeps_aliases Toy.zeros Toy.prepare_batch
           Toy.library_without_backward (Toy.trainer false) (Some 50)
           (Toy.final false) Hs).
Defined.

Lemma get_state_keys_witness :
  is_Some ((Toy.export false defaults (Some Toy.additional)).1 !! "generator") /\
  ("generator" ∈ switch_key <$> switches \/
   exists d, Some Toy.additional = Some d /\ "generator" ∈ dom d).
Proof.
  assert (is_Some ((Toy.export false defaults (Some Toy.additional)).1
                     !! "generator")) as Hk
    by (eexists; by vm_compute).
  split; [exact Hk|].
  exact (get_state_keys Toy.engine_state_dict Toy.state_dict
           Toy.loss_state_dict (Toy.trainer false) defaults
           (Some Toy.additional) "generator" Hk).
Defined.
